(** * Link verification and reconciliation engine (fixer.py)

    A shallow embedding of [LinkChecker], [DataValidator] and [FixerBot]
    of [src/fixer.py], and the properties of the specification that are
    stated about them.

    Conventions of the embedding.
    - A Python [str] is the list of its Unicode code points ([list N]);
      the ASCII literals of the source are written through [lit].
    - A catalog record (the [Dict] returned by [doc.to_dict()]) is a
      [gmap string value]; field names are the ASCII keys of the source.
    - Exceptions are values of [exn]; code that mutates [self.stats] and the
      catalog while it may raise lives in the monad [M], whose state
      survives a raise as a Python object does.
    - The network transport, the wall clock and the server clock are
      oracles of the environment [Env]. *)

From Stdlib Require Import ZArith QArith Lia.
From stdpp Require Import gmap strings list fin_maps pretty.

Open Scope Z_scope.

(** ** Strings and field values *)

Definition lit (s : string) : list N :=
  map Ascii.N_of_ascii (String.list_ascii_of_string s).

(** [str.isspace] of one character: the code points Python treats as
    whitespace, which [str.strip()] without argument removes. *)
Definition isspace (c : N) : bool :=
  ((9 <=? c) && (c <=? 13) || (28 <=? c) && (c <=? 32)
   || (c =? 133) || (c =? 160) || (c =? 5760)
   || (8192 <=? c) && (c <=? 8202)
   || (c =? 8232) || (c =? 8233) || (c =? 8239) || (c =? 8287)
   || (c =? 12288))%N.

Fixpoint lstrip (s : list N) : list N :=
  match s with
  | c :: s' => if isspace c then lstrip s' else s
  | [] => []
  end.

Definition rstrip (s : list N) : list N := reverse (lstrip (reverse s)).

Definition strip (s : list N) : list N := rstrip (lstrip s).

(** The values a catalog field can hold (the scalar Firestore types the
    engine meets). *)
Inductive value :=
  | VNone
  | VBool (b : bool)
  | VInt (n : Z)
  | VStr (s : list N)
  | VTime (t : Z).

#[global] Instance value_eq_dec : EqDecision value.
Proof. solve_decision. Defined.

(** Python truthiness, as used by [if x:] and [not x]. *)
Definition truthy (v : value) : bool :=
  match v with
  | VNone => false
  | VBool b => b
  | VInt n => negb (n =? 0)
  | VStr s => negb (bool_decide (s = []))
  | VTime _ => true
  end.

(** [book_data.get(field)]: [None] when the key is absent. *)
Definition dict_get (book_data : gmap string value) (f : string) : value :=
  default VNone (book_data !! f).

(** [v == "literal"] for a field value [v]. *)
Definition eq_str (v : value) (s : list N) : bool :=
  bool_decide (v = VStr s).

Inductive exn :=
  | AttributeError
  | NotFound.

Inductive result (A : Type) :=
  | Ok (a : A)
  | Raise (e : exn).
Arguments Ok {A} a.
Arguments Raise {A} e.

(** [v.strip()]: only a [str] has the method. *)
Definition value_strip (v : value) : result (list N) :=
  match v with
  | VStr s => Ok (strip s)
  | _ => Raise AttributeError
  end.

(** What an update dictionary can carry for a field: a plain value, or one
    of the two sentinels [firestore.DELETE_FIELD] and
    [firestore.SERVER_TIMESTAMP]. *)
Inductive update_value :=
  | USet (v : value)
  | UDelete
  | UServerTimestamp.

#[global] Instance update_value_eq_dec : EqDecision update_value.
Proof. solve_decision. Defined.

(** ** Configuration *)

Module BookStatus.
Definition PUBLISHED : list N := lit "published".
Definition SCHEDULED : list N := lit "scheduled".
Definition BROKEN : list N := lit "broken".
Definition PENDING : list N := lit "pending".
Definition ARCHIVED : list N := lit "archived".
Definition DRAFT : list N := lit "draft".
End BookStatus.

(** The fields of [FixerConfig] that decide the behaviour modelled here.
    [request_timeout], [retry_attempts] and [rate_limit_delay] only
    parametrise the transport and the pacing sleeps (both oracles below),
    [verbose] only the logging. [ThreadPoolExecutor] requires a positive
    [max_workers]. *)
Record FixerConfig := {
  max_workers : positive;
  enable_parallel : bool;
  check_interval_days : Z;
  enable_smart_filter : bool;
  batch_size : option nat;
  max_execution_time : Z;
  default_category : list N;
  default_status : list N;
  required_fields : list string
}.

Definition default_required_fields : list string :=
  ["bangla_title"; "category"; "download_url"; "status"]%string.

(** ** DataValidator *)

(** [field not in book_data or not book_data[field]] *)
Definition is_missing (book_data : gmap string value) (f : string) : bool :=
  match book_data !! f with
  | None => true
  | Some v => negb (truthy v)
  end.

(** One iteration of the loop over [required_fields]. *)
Definition default_step (cfg : FixerConfig) (book_data : gmap string value)
    (updates : gmap string update_value) (f : string) : gmap string update_value :=
  if is_missing book_data f then
    if String.eqb f "category" then
      <["category"%string := USet (VStr (default_category cfg))]> updates
    else if String.eqb f "status" then
      <["status"%string := USet (VStr (default_status cfg))]> updates
    else updates
  else updates.

(** One of the three trimming blocks. *)
Definition trim_field (book_data : gmap string value) (f : string)
    (updates : gmap string update_value) : result (gmap string update_value) :=
  match book_data !! f with
  | Some v =>
      if truthy v then
        match value_strip v with
        | Ok trimmed =>
            if bool_decide (VStr trimmed ≠ v)
            then Ok (<[f := USet (VStr trimmed)]> updates)
            else Ok updates
        | Raise e => Raise e
        end
      else Ok updates
  | None => Ok updates
  end.

Definition validate_book (cfg : FixerConfig) (book_data : gmap string value)
    : result (gmap string update_value) :=
  let updates := foldl (default_step cfg book_data) ∅ (required_fields cfg) in
  match trim_field book_data "bangla_title" updates with
  | Ok updates =>
      match trim_field book_data "english_title" updates with
      | Ok updates => trim_field book_data "author" updates
      | Raise e => Raise e
      end
  | Raise e => Raise e
  end.

(** ** Statistics, catalog and engine state *)

Record FixerStats := mkStats {
  total_scanned : nat;
  working_links : nat;
  broken_links : nat;
  fixed_records : nat;
  skipped_records : nat;
  errors : nat;
  timeout_stop : bool;
  execution_time : Q
}.

(** [FixerStats()] *)
Definition new_stats : FixerStats := mkStats 0 0 0 0 0 0 false 0.

(** A document snapshot of the query stream: [doc.id] and [doc.to_dict()]. *)
Record Doc := mkDoc {
  doc_id : string;
  doc_data : gmap string value
}.

(** The mutable world of a [FixerBot]: [self.stats], [self.start_time], the
    [books] collection behind [self.db], the number of [time.time()] calls
    made so far, and two traces that record what the bot did: the URLs sent
    to the transport and the updates the catalog accepted. *)
Record State := mkState {
  stats : FixerStats;
  db : gmap string (gmap string value);
  start_time : option Q;
  ticks : nat;
  head_log : list value;
  write_log : list (string * gmap string update_value)
}.

Definition map_stats (f : FixerStats → FixerStats) (st : State) : State :=
  mkState (f (stats st)) (db st) (start_time st) (ticks st)
          (head_log st) (write_log st).

Definition bump_total_scanned (s : FixerStats) : FixerStats :=
  mkStats (S (total_scanned s)) (working_links s) (broken_links s) (fixed_records s)
          (skipped_records s) (errors s) (timeout_stop s) (execution_time s).
Definition bump_working_links (s : FixerStats) : FixerStats :=
  mkStats (total_scanned s) (S (working_links s)) (broken_links s) (fixed_records s)
          (skipped_records s) (errors s) (timeout_stop s) (execution_time s).
Definition bump_broken_links (s : FixerStats) : FixerStats :=
  mkStats (total_scanned s) (working_links s) (S (broken_links s)) (fixed_records s)
          (skipped_records s) (errors s) (timeout_stop s) (execution_time s).
Definition bump_fixed_records (s : FixerStats) : FixerStats :=
  mkStats (total_scanned s) (working_links s) (broken_links s) (S (fixed_records s))
          (skipped_records s) (errors s) (timeout_stop s) (execution_time s).
Definition bump_skipped_records (s : FixerStats) : FixerStats :=
  mkStats (total_scanned s) (working_links s) (broken_links s) (fixed_records s)
          (S (skipped_records s)) (errors s) (timeout_stop s) (execution_time s).
Definition bump_errors (s : FixerStats) : FixerStats :=
  mkStats (total_scanned s) (working_links s) (broken_links s) (fixed_records s)
          (skipped_records s) (S (errors s)) (timeout_stop s) (execution_time s).
Definition set_timeout_stop (s : FixerStats) : FixerStats :=
  mkStats (total_scanned s) (working_links s) (broken_links s) (fixed_records s)
          (skipped_records s) (errors s) true (execution_time s).
Definition set_execution_time (t : Q) (s : FixerStats) : FixerStats :=
  mkStats (total_scanned s) (working_links s) (broken_links s) (fixed_records s)
          (skipped_records s) (errors s) (timeout_stop s) t.

Definition log_head (url : value) (st : State) : State :=
  mkState (stats st) (db st) (start_time st) (ticks st)
          (head_log st ++ [url]) (write_log st).
Definition tick (st : State) : State :=
  mkState (stats st) (db st) (start_time st) (S (ticks st))
          (head_log st) (write_log st).
Definition set_start_time (t : Q) (st : State) : State :=
  mkState (stats st) (db st) (Some t) (ticks st)
          (head_log st) (write_log st).

(** [FixerBot(config)] over a catalog. *)
Definition new_bot (catalog : gmap string (gmap string value)) : State :=
  mkState new_stats catalog None 0 [] [].

(** What [session.head] ends with, after the transport's own redirects and
    retries: a final response, or one of the exception classes that
    [check_link] tells apart. *)
Inductive head_result :=
  | Response (status_code : Z)
  | RaisesTimeout
  | RaisesConnectionError
  | RaisesOther (msg : list N).

(** The environment of a run. [clock n] is what the [n]-th call of
    [time.time()] returns (seconds); [datetime_now] is [datetime.now()] when
    the query is built and [server_time id] the time the server stamps on the
    update of document [id] (both in microseconds); [iso_now id] is
    [datetime.now().isoformat()] when document [id] is processed;
    [completion] is the order in which the pool completes the submitted
    records. *)
Record Env := mkEnv {
  config : FixerConfig;
  transport : value → head_result;
  clock : nat → Q;
  datetime_now : Z;
  server_time : string → Z;
  iso_now : string → list N;
  completion : list Doc → list Doc
}.

(** ** The state and exception monad *)

Definition M (A : Type) : Type := State → State * result A.

#[global] Instance M_ret : MRet M := λ A a st, (st, Ok a).
#[global] Instance M_bind : MBind M := λ A B f m st,
  match m st with
  | (st', Ok a) => f a st'
  | (st', Raise e) => (st', Raise e)
  end.

Definition modify (f : State → State) : M unit := λ st, (f st, Ok tt).
Definition lift {A} (r : result A) : M A := λ st, (st, r).

(** ** LinkChecker *)

(** The [try] block of [check_link] on what the call ended with: the test
    of the status code and the three [except] clauses. *)
Definition classify_head (r : head_result) : bool * option (list N) :=
  match r with
  | Response status_code =>
      if status_code =? 200 then (true, None)
      else (false, Some (lit "Status code: " ++ lit (pretty status_code)))
  | RaisesTimeout => (false, Some (lit "Request timeout"))
  | RaisesConnectionError => (false, Some (lit "Connection error"))
  | RaisesOther msg => (false, Some (lit "Unknown error: " ++ take 50 msg))
  end.

Definition check_link (env : Env) (url : value) : M (bool * option (list N)) :=
  if negb (truthy url) then mret (false, Some (lit "URL missing"))
  else
    modify (log_head url);;
    mret (classify_head (transport env url)).

(** ** The catalog's update and query operations *)

Definition apply_field (now : Z) (u : option update_value) (old : option value)
    : option value :=
  match u with
  | Some (USet v) => Some v
  | Some UDelete => None
  | Some UServerTimestamp => Some (VTime now)
  | None => old
  end.

(** The record after a field-level update. *)
Definition apply_updates (now : Z) (updates : gmap string update_value)
    (record : gmap string value) : gmap string value :=
  merge (apply_field now) updates record.

(** [db.collection('books').document(doc_id).update(updates)]: the store
    rejects the update of a document that does not exist. *)
Definition db_update (env : Env) (id : string) (updates : gmap string update_value)
    : M unit := λ st,
  match db st !! id with
  | None => (st, Raise NotFound)
  | Some record =>
      (mkState (stats st)
               (<[id := apply_updates (server_time env id) updates record]> (db st))
               (start_time st) (ticks st) (head_log st)
               (write_log st ++ [(id, updates)]),
       Ok tt)
  end.

Record Query := mkQuery {
  where_last_checked_lt : option Z;
  limit : option nat
}.

(** Firestore's range filter [where('last_checked', '<', cutoff)]: a
    document matches when it has the field, the field holds a timestamp,
    and the timestamp is before the cutoff. The filter ranges over the
    index of the field, and a document without the field is not in it. *)
Definition matches_lt (cutoff : Z) (record : gmap string value) : bool :=
  match record !! "last_checked"%string with
  | Some (VTime t) => t <? cutoff
  | _ => false
  end.

(** [list(query.stream())] *)
Definition stream (q : Query) (catalog : gmap string (gmap string value)) : list Doc :=
  let docs := (λ p, mkDoc p.1 p.2) <$> map_to_list catalog in
  let docs := match where_last_checked_lt q with
              | Some cutoff => List.filter (λ d, matches_lt cutoff (doc_data d)) docs
              | None => docs
              end in
  match limit q with
  | Some n => take n docs
  | None => docs
  end.

Definition microseconds_per_day : Z := 86400000000.

Definition _get_query (env : Env) : Query :=
  let cfg := config env in
  mkQuery
    (if enable_smart_filter cfg
     then Some (datetime_now env - check_interval_days cfg * microseconds_per_day)
     else None)
    (match batch_size cfg with
     | Some n => if (n =? 0)%nat then None else Some n
     | None => None
     end).

(** ** FixerBot *)

(** [process_book], step 1: probe the link and derive the status edit. *)
Definition link_updates (env : Env) (book_data : gmap string value)
    : M (gmap string update_value) :=
  let pdf_url := dict_get book_data "download_url" in
  if truthy pdf_url then
    r ← check_link env pdf_url;
    let is_working := r.1 in
    let error_msg := r.2 in
    if negb is_working then
      modify (map_stats bump_broken_links);;
      mret (<["error_message"%string := USet (from_option VStr VNone error_msg)]>
            (<["status"%string := USet (VStr BookStatus.BROKEN)]> ∅))
    else
      modify (map_stats bump_working_links);;
      if eq_str (dict_get book_data "status") BookStatus.BROKEN then
        let updates : gmap string update_value :=
          <["status"%string := USet (VStr BookStatus.PUBLISHED)]> ∅ in
        if bool_decide (is_Some (book_data !! "error_message"%string))
        then mret (<["error_message"%string := UDelete]> updates)
        else mret updates
      else mret ∅
  else mret ∅.

(** [process_book], steps 1 to 3: the dictionary [updates] as it stands
    when step 4 tests it. [updates.update(data_updates)] lets the
    validator's entries win. *)
Definition compute_updates (env : Env) (doc : Doc) : M (gmap string update_value) :=
  let book_data := doc_data doc in
  updates ← link_updates env book_data;
  data_updates ← lift (validate_book (config env) book_data);
  let updates := data_updates ∪ updates in
  let updates := <["last_checked"%string := UServerTimestamp]> updates in
  mret (<["last_fixer_run"%string := USet (VStr (iso_now env (doc_id doc)))]> updates).

(** The body of the [try] of [process_book]. *)
Definition process_book_body (env : Env) (doc : Doc) : M unit :=
  modify (map_stats bump_total_scanned);;
  updates ← compute_updates env doc;
  if bool_decide (updates ≠ ∅) then
    db_update env (doc_id doc) updates;;
    modify (map_stats bump_fixed_records)
  else modify (map_stats bump_skipped_records).

(** [process_book]: any exception of the body is caught and counted. *)
Definition process_book (env : Env) (doc : Doc) (st : State) : State :=
  match process_book_body env doc st with
  | (st', Ok _) => st'
  | (st', Raise _) => map_stats bump_errors st'
  end.

Definition _should_stop_execution (env : Env) (st : State) : bool * State :=
  match start_time st with
  | None => (false, st)
  | Some t0 =>
      let elapsed := (clock env (ticks st) - t0)%Q in
      let st := tick st in
      if Qle_bool (inject_Z (max_execution_time (config env))) elapsed
      then (true, map_stats set_timeout_stop st)
      else (false, st)
  end.

Fixpoint run_serial (env : Env) (docs : list Doc) (st : State) : State :=
  match docs with
  | [] => st
  | doc :: docs' =>
      let (stop, st) := _should_stop_execution env st in
      if stop then st else run_serial env docs' (process_book env doc st)
  end.

(** The submission loop of [run_parallel]: the records handed to the pool,
    in order, and the state when the loop ends. *)
Fixpoint submit_loop (env : Env) (docs : list Doc) (st : State) : list Doc * State :=
  match docs with
  | [] => ([], st)
  | doc :: docs' =>
      let (stop, st) := _should_stop_execution env st in
      if stop then ([], st)
      else let (futures, st) := submit_loop env docs' st in (doc :: futures, st)
  end.

(** [run_parallel]: every submitted record is processed by a worker, and
    the counter updates of the workers are taken as atomic, so that a run is
    the submitted records processed in their completion order.
    [process_book] lets no [Exception] out, so [future.result()] does not
    raise. *)
Definition run_parallel (env : Env) (docs : list Doc) (st : State) : State :=
  let (futures, st) := submit_loop env docs st in
  foldl (λ st doc, process_book env doc st) st (completion env futures).

Definition run (env : Env) (st : State) : State :=
  let t0 := clock env (ticks st) in
  let st := set_start_time t0 (tick st) in
  let docs := stream (_get_query env) (db st) in
  let st :=
    if (length docs =? 0)%nat then st
    else if enable_parallel (config env) && (5 <? length docs)%nat
         then run_parallel env docs st
         else run_serial env docs st in
  map_stats (set_execution_time (clock env (ticks st) - t0)%Q) (tick st).

(** * Auxiliary definitions *)

(** The status repair of a record whose link works ([process_book], the
    block under the comment on a record that was broken before). *)
Definition repair_updates (book_data : gmap string value) : gmap string update_value :=
  if eq_str (dict_get book_data "status") BookStatus.BROKEN then
    if bool_decide (is_Some (book_data !! "error_message"%string))
    then <["error_message"%string := UDelete]>
           (<["status"%string := USet (VStr BookStatus.PUBLISHED)]> ∅)
    else <["status"%string := USet (VStr BookStatus.PUBLISHED)]> ∅
  else ∅.

Definition broken_updates (detail : value) : gmap string update_value :=
  <["error_message"%string := USet detail]>
    (<["status"%string := USet (VStr BookStatus.BROKEN)]> ∅).

(** The edits the link step returns, and the state it leaves. *)
Definition link_edits (env : Env) (book_data : gmap string value)
    : gmap string update_value :=
  let url := dict_get book_data "download_url" in
  if truthy url then
    let r := classify_head (transport env url) in
    if r.1 then repair_updates book_data
    else broken_updates (from_option VStr VNone r.2)
  else ∅.

Definition link_state (env : Env) (book_data : gmap string value) (st : State) : State :=
  let url := dict_get book_data "download_url" in
  if truthy url then
    map_stats (if (classify_head (transport env url)).1
               then bump_working_links else bump_broken_links)
              (log_head url st)
  else st.

Definition final_updates (env : Env) (doc : Doc)
    (data_updates updates : gmap string update_value) : gmap string update_value :=
  <["last_fixer_run"%string := USet (VStr (iso_now env (doc_id doc)))]>
    (<["last_checked"%string := UServerTimestamp]> (data_updates ∪ updates)).

(** The state after the catalog accepted an update of document [id]. *)
Definition committed (env : Env) (id : string) (updates : gmap string update_value)
    (record : gmap string value) (st : State) : State :=
  mkState (stats st)
          (<[id := apply_updates (server_time env id) updates record]> (db st))
          (start_time st) (ticks st) (head_log st)
          (write_log st ++ [(id, updates)]).

Definition text_fields : list string := ["bangla_title"; "english_title"; "author"]%string.

(** A field value that trimming leaves alone. *)
Definition trimmed (v : value) : bool :=
  match v with
  | VStr s => bool_decide (strip s = s)
  | _ => negb (truthy v)
  end.

(** A normalized record: every required field is there and not empty, and
    every text field that is there is trimmed. *)
Definition normalized (cfg : FixerConfig) (book_data : gmap string value) : bool :=
  forallb (λ f, negb (is_missing book_data f)) (required_fields cfg)
  && forallb (λ f, from_option trimmed true (book_data !! f)) text_fields.

(** The two bookkeeping relations between the counters. *)
Definition every_record_resolved (s : FixerStats) : Prop :=
  (fixed_records s + skipped_records s + errors s = total_scanned s)%nat.

Definition links_within_scanned (s : FixerStats) : Prop :=
  (working_links s + broken_links s ≤ total_scanned s)%nat.

(** The state a dispatch loop ends in when it stops at its [S j]-th
    deadline check: [j] checks passed, one more failed and set the flag. *)
Definition halted (j : nat) (st : State) : State :=
  map_stats set_timeout_stop (Nat.iter (S j) tick st).

Definition process_all (env : Env) (docs : list Doc) (st : State) : State :=
  foldl (λ st doc, process_book env doc st) st docs.

(** The time the [i]-th deadline check of a loop started in [st] sees. *)
Definition elapsed_at (env : Env) (st : State) (t0 : Q) (i : nat) : Q :=
  (clock env (ticks st + i)%nat - t0)%Q.

Definition deadline_reached (env : Env) (st : State) (t0 : Q) (i : nat) : bool :=
  Qle_bool (inject_Z (max_execution_time (config env))) (elapsed_at env st t0 i).

(** [cutoff_date] of [_get_query]. *)
Definition cutoff_date (env : Env) : Z :=
  datetime_now env - check_interval_days (config env) * microseconds_per_day.

(** ** Sample records, catalogs and environments *)

Definition sample_config : FixerConfig :=
  {| max_workers := 3; enable_parallel := true; check_interval_days := 7;
     enable_smart_filter := false; batch_size := None; max_execution_time := 300;
     default_category := lit "novel"; default_status := BookStatus.PUBLISHED;
     required_fields := default_required_fields |}.

Definition smart_config : FixerConfig :=
  {| max_workers := 3; enable_parallel := true; check_interval_days := 7;
     enable_smart_filter := true; batch_size := None; max_execution_time := 300;
     default_category := lit "novel"; default_status := BookStatus.PUBLISHED;
     required_fields := default_required_fields |}.

(** Every probe ends with the given status code; the clock advances by 200
    seconds between two readings. *)
Definition sample_env (cfg : FixerConfig) (status_code : Z) : Env :=
  mkEnv cfg (λ _, Response status_code) (λ n, inject_Z (200 * Z.of_nat n))
        1700000000000000 (λ _, 1700000000000000) (λ _, lit "2023-11-14T22:13:20") id.

Definition good_url : value := VStr (lit "https://good.example/x.pdf").

Definition good_record : gmap string value :=
  <["download_url"%string := good_url]>
    (<["status"%string := VStr BookStatus.PUBLISHED]> ∅).

Definition no_url_record : gmap string value :=
  <["download_url"%string := VStr []]>
    (<["status"%string := VStr BookStatus.PUBLISHED]> ∅).

Definition no_status_record : gmap string value :=
  <["download_url"%string := good_url]> ∅.

Definition full_record : gmap string value :=
  <["bangla_title"%string := VStr (lit "Pather Panchali")]>
    (<["category"%string := VStr (lit "novel")]> good_record).

Definition numeric_title_record : gmap string value :=
  <["bangla_title"%string := VInt 1984]> good_record.

Definition one_book (record : gmap string value) : gmap string (gmap string value) :=
  <["book1"%string := record]> ∅.

Definition two_books : gmap string (gmap string value) :=
  <["book1"%string := full_record]> (<["book2"%string := good_record]> ∅).

(** The edit set of a sample record, alone in the catalog under the id
    [book1], when every probe returns 200. *)
Definition sample_run (record : gmap string value)
    : State * result (gmap string update_value) :=
  compute_updates (sample_env sample_config 200) (mkDoc "book1" record)
                  (new_bot (one_book record)).

Definition sample_updates (record : gmap string value) : gmap string update_value :=
  match (sample_run record).2 with
  | Ok updates => updates
  | Raise _ => ∅
  end.

(** ** Auxiliary definitions of the further properties *)

#[global] Instance head_result_eq_dec : EqDecision head_result.
Proof. solve_decision. Defined.

(** [isinstance(v, str)] *)
Definition is_str (v : value) : bool :=
  match v with
  | VStr _ => true
  | _ => false
  end.

(** A text field on which [.strip()] raises: it is there, truthy, and not a
    string. *)
Definition bad_text (book_data : gmap string value) (f : string) : bool :=
  match book_data !! f with
  | Some v => truthy v && negb (is_str v)
  | None => false
  end.

(** The edit one trimming block proposes for its field. *)
Definition trim_edit (book_data : gmap string value) (f : string) : option update_value :=
  match book_data !! f with
  | Some (VStr s) =>
      if bool_decide (s ≠ [] ∧ strip s ≠ s) then Some (USet (VStr (strip s))) else None
  | _ => None
  end.

(** What one call of [process_book] does to the counters, given whether
    the catalog still holds the document. *)
Definition stats_step (env : Env) (doc : Doc) (present : bool) (s : FixerStats)
    : FixerStats :=
  let s := bump_total_scanned s in
  let s :=
    if truthy (dict_get (doc_data doc) "download_url") then
      if (classify_head (transport env (dict_get (doc_data doc) "download_url"))).1
      then bump_working_links s else bump_broken_links s
    else s in
  match validate_book (config env) (doc_data doc) with
  | Ok _ => if present then bump_fixed_records s else bump_errors s
  | Raise _ => bump_errors s
  end.

(** The catalog documents a query ranges over, in store order. *)
Definition all_docs (catalog : gmap string (gmap string value)) : list Doc :=
  (λ p, mkDoc p.1 p.2) <$> map_to_list catalog.

(** ** main *)

(** The configuration [main] builds; [default_category] is the Bengali
    word of the source, by code points. *)
Definition main_config : FixerConfig :=
  {| max_workers := 3; enable_parallel := true; check_interval_days := 7;
     enable_smart_filter := true; batch_size := None; max_execution_time := 300;
     default_category := [2441; 2474; 2472; 2509; 2479; 2494; 2488]%N;
     default_status := BookStatus.PUBLISHED;
     required_fields := default_required_fields |}.

(** The exit status of [main] for a run that completes (the bot is built
    and the query answers): 1 when the run counted errors, else 0. The
    oracles of [env] are those of the run, under [main_config]. *)
Definition main_env (env : Env) : Env :=
  mkEnv main_config (transport env) (clock env) (datetime_now env)
        (server_time env) (iso_now env) (completion env).

Definition main (env : Env) (catalog : gmap string (gmap string value)) : Z :=
  let stats := stats (run (main_env env) (new_bot catalog)) in
  if (0 <? errors stats)%nat then 1 else 0.

(** ** Further sample records *)

Definition broken_record : gmap string value :=
  <["error_message"%string := VStr (lit "Status code: 404")]>
    (<["status"%string := VStr BookStatus.BROKEN]> no_status_record).

(** * Properties *)

Set Warnings "-clear-no-such-hyp".

(** ** Equations of the monadic code *)

Lemma check_link_eq env url st :
  check_link env url st =
    if truthy url then (log_head url st, Ok (classify_head (transport env url)))
    else (st, Ok (false, Some (lit "URL missing"))).
Proof. unfold check_link. by destruct (truthy url). Qed.

Lemma link_updates_eq env book_data st :
  link_updates env book_data st =
    (link_state env book_data st, Ok (link_edits env book_data)).
Proof.
  unfold link_updates, link_state, link_edits, repair_updates, broken_updates.
  destruct (truthy (dict_get book_data "download_url")) eqn:Hurl; [|done].
  unfold mbind, M_bind. rewrite check_link_eq, Hurl.
  destruct (classify_head _) as [[] detail]; simpl; [|done].
  unfold modify, mret, M_ret.
  destruct (eq_str _ _); [destruct (bool_decide _)|]; reflexivity.
Qed.

Lemma compute_updates_eq env doc st :
  compute_updates env doc st =
    (link_state env (doc_data doc) st,
     match validate_book (config env) (doc_data doc) with
     | Ok data_updates =>
         Ok (final_updates env doc data_updates (link_edits env (doc_data doc)))
     | Raise e => Raise e
     end).
Proof.
  unfold compute_updates, mbind, M_bind, lift. rewrite link_updates_eq.
  by destruct (validate_book _ _).
Qed.

Lemma link_state_db env book_data st : db (link_state env book_data st) = db st.
Proof. unfold link_state. by destruct (truthy _). Qed.

Lemma final_updates_non_empty env doc data_updates updates :
  final_updates env doc data_updates updates ≠ ∅.
Proof. apply insert_non_empty. Qed.

(** [process_book], outcome by outcome: the validator raised, the catalog
    rejected the update, or the update went through. *)
Lemma process_book_eq env doc st :
  process_book env doc st =
    let st' := link_state env (doc_data doc) (map_stats bump_total_scanned st) in
    match validate_book (config env) (doc_data doc) with
    | Ok data_updates =>
        match db st !! doc_id doc with
        | Some record =>
            map_stats bump_fixed_records
              (committed env (doc_id doc)
                 (final_updates env doc data_updates (link_edits env (doc_data doc)))
                 record st')
        | None => map_stats bump_errors st'
        end
    | Raise _ => map_stats bump_errors st'
    end.
Proof.
  unfold process_book, process_book_body, mbind, M_bind, modify.
  rewrite compute_updates_eq.
  destruct (validate_book _ _) as [du|e]; [|done].
  rewrite bool_decide_eq_true_2 by apply final_updates_non_empty.
  unfold db_update, committed. rewrite link_state_db. simpl.
  by destruct (db st !! doc_id doc).
Qed.

(** ** The validator *)

Lemma default_step_lookup cfg book_data updates f k :
  default_step cfg book_data updates f !! k =
    if bool_decide (k = f ∧ is_missing book_data f = true ∧ f = "category"%string)
    then Some (USet (VStr (default_category cfg)))
    else if bool_decide (k = f ∧ is_missing book_data f = true ∧ f = "status"%string)
    then Some (USet (VStr (default_status cfg)))
    else updates !! k.
Proof.
  unfold default_step.
  destruct (is_missing book_data f) eqn:Hm.
  2: { repeat case_bool_decide; destruct_and?; congruence. }
  destruct (String.eqb_spec f "category") as [->|Hc].
  { rewrite lookup_insert.
    repeat (case_bool_decide || case_decide); destruct_and?; simplify_eq; try done.
    all: exfalso; auto. }
  destruct (String.eqb_spec f "status") as [->|Hs].
  { rewrite lookup_insert.
    repeat (case_bool_decide || case_decide); destruct_and?; simplify_eq; try done.
    all: exfalso; auto. }
  repeat case_bool_decide; destruct_and?; congruence.
Qed.

(** The entry the defaulting loop leaves for a field. *)
Lemma defaults_lookup cfg book_data fields updates k :
  foldl (default_step cfg book_data) updates fields !! k =
    if bool_decide (k ∈ fields ∧ is_missing book_data k = true ∧ k = "category"%string)
    then Some (USet (VStr (default_category cfg)))
    else if bool_decide (k ∈ fields ∧ is_missing book_data k = true ∧ k = "status"%string)
    then Some (USet (VStr (default_status cfg)))
    else updates !! k.
Proof.
  revert updates. induction fields as [|f fields IH]; intros updates; cbn [foldl].
  { repeat case_bool_decide; destruct_and?; try done; exfalso; set_solver. }
  rewrite IH, default_step_lookup.
  repeat case_bool_decide; try done; exfalso; set_solver.
Qed.

Lemma trim_field_lookup book_data f updates updates' k :
  trim_field book_data f updates = Ok updates' →
  k ≠ f ∨ is_missing book_data f = true →
  updates' !! k = updates !! k.
Proof.
  unfold trim_field, is_missing. intros Ht Hk.
  destruct (book_data !! f) as [v|]; [|by simplify_eq].
  destruct (truthy v); [|by simplify_eq].
  destruct Hk as [Hk|Hk]; [|done].
  destruct (value_strip v); [|done].
  case_bool_decide; simplify_eq; [|done].
  by rewrite lookup_insert_ne.
Qed.

(** Outside the text fields that need trimming, the validator proposes the
    defaults and nothing else. *)
Lemma validate_book_lookup cfg book_data data_updates k :
  validate_book cfg book_data = Ok data_updates →
  k ∉ text_fields ∨ is_missing book_data k = true →
  data_updates !! k =
    if bool_decide (k ∈ required_fields cfg ∧ is_missing book_data k = true
                    ∧ k = "category"%string)
    then Some (USet (VStr (default_category cfg)))
    else if bool_decide (k ∈ required_fields cfg ∧ is_missing book_data k = true
                         ∧ k = "status"%string)
    then Some (USet (VStr (default_status cfg)))
    else None.
Proof.
  unfold validate_book. intros Hv Hk.
  destruct (trim_field book_data "bangla_title" _) as [u1|] eqn:H1; [|done].
  destruct (trim_field book_data "english_title" _) as [u2|] eqn:H2; [|done].
  assert (∀ f, f ∈ text_fields → k ≠ f ∨ is_missing book_data f = true) as Hf.
  { intros f Hin. destruct (decide (k = f)) as [->|]; [|by left].
    destruct Hk; [done|by right]. }
  rewrite (trim_field_lookup _ _ _ _ _ Hv), (trim_field_lookup _ _ _ _ _ H2),
    (trim_field_lookup _ _ _ _ _ H1), defaults_lookup, lookup_empty;
    [done|apply Hf; set_solver..].
Qed.

Lemma defaults_present cfg book_data fields updates :
  forallb (λ f, negb (is_missing book_data f)) fields = true →
  foldl (default_step cfg book_data) updates fields = updates.
Proof.
  revert updates. induction fields as [|f fields IH]; intros updates Hall; [done|].
  cbn [forallb] in Hall. apply andb_true_iff in Hall as [Hf Hall].
  cbn [foldl]. unfold default_step at 2.
  apply negb_true_iff in Hf. rewrite Hf. by apply IH.
Qed.

Lemma trim_field_trimmed book_data f updates :
  from_option trimmed true (book_data !! f) = true →
  trim_field book_data f updates = Ok updates.
Proof.
  unfold trim_field. destruct (book_data !! f) as [v|]; [|done].
  destruct v as [|b|n|s|t]; simpl; intros Ht; try done.
  - by destruct b.
  - by destruct (n =? 0).
  - apply bool_decide_eq_true in Ht. rewrite Ht.
    destruct (negb _); [|done].
    by rewrite bool_decide_eq_false_2 by (intros Hne; by apply Hne).
Qed.

Lemma validate_book_normalized cfg book_data :
  normalized cfg book_data = true → validate_book cfg book_data = Ok ∅.
Proof.
  unfold normalized, text_fields. cbn [forallb].
  rewrite !andb_true_iff. intros (Hreq & Hb & He & Ha & _).
  unfold validate_book. rewrite defaults_present by done.
  by rewrite !trim_field_trimmed.
Qed.

Lemma apply_updates_lookup now updates record k :
  apply_updates now updates record !! k =
    apply_field now (updates !! k) (record !! k).
Proof.
  unfold apply_updates. rewrite lookup_merge.
  by destruct (updates !! k), (record !! k).
Qed.

Lemma apply_updates_empty now record : apply_updates now ∅ record = record.
Proof. apply map_eq. intros k. by rewrite apply_updates_lookup, lookup_empty. Qed.

(** ** Processing a record and the scheduler's own fields *)

Ltac process_book_cases env doc st :=
  rewrite !process_book_eq; unfold link_state; cbn [db tick map_stats];
  destruct (validate_book (config env) (doc_data doc));
  [destruct (db st !! doc_id doc)|];
  destruct (truthy (dict_get (doc_data doc) "download_url"));
  try destruct (classify_head _).1.

Lemma process_book_tick env doc st :
  process_book env doc (tick st) = tick (process_book env doc st).
Proof. process_book_cases env doc st; reflexivity. Qed.

Lemma process_book_timeout_stop env doc st :
  process_book env doc (map_stats set_timeout_stop st) =
    map_stats set_timeout_stop (process_book env doc st).
Proof. process_book_cases env doc st; reflexivity. Qed.

Lemma process_book_start_time env doc st :
  start_time (process_book env doc st) = start_time st.
Proof. process_book_cases env doc st; reflexivity. Qed.

Lemma process_book_ticks env doc st :
  ticks (process_book env doc st) = ticks st.
Proof. process_book_cases env doc st; reflexivity. Qed.

Lemma process_all_tick env docs st :
  process_all env docs (tick st) = tick (process_all env docs st).
Proof.
  revert st. induction docs as [|doc docs IH]; intros st; [done|].
  unfold process_all in *. cbn [foldl]. by rewrite process_book_tick, IH.
Qed.

Lemma process_all_timeout_stop env docs st :
  process_all env docs (map_stats set_timeout_stop st) =
    map_stats set_timeout_stop (process_all env docs st).
Proof.
  revert st. induction docs as [|doc docs IH]; intros st; [done|].
  unfold process_all in *. cbn [foldl]. by rewrite process_book_timeout_stop, IH.
Qed.

Lemma process_all_ticks env docs n st :
  process_all env docs (Nat.iter n tick st) = Nat.iter n tick (process_all env docs st).
Proof.
  induction n as [|n IH]; [done|].
  rewrite !Nat.iter_succ. by rewrite process_all_tick, IH.
Qed.

Lemma process_all_halted env docs j st :
  process_all env docs (halted j st) = halted j (process_all env docs st).
Proof.
  unfold halted. by rewrite process_all_timeout_stop, process_all_ticks.
Qed.

Lemma halted_tick j st : halted j (tick st) = halted (S j) st.
Proof. unfold halted. f_equal. by rewrite <- Nat.iter_succ_r. Qed.

Lemma should_stop_eq env st t0 :
  start_time st = Some t0 →
  _should_stop_execution env st =
    if deadline_reached env st t0 0
    then (true, map_stats set_timeout_stop (tick st))
    else (false, tick st).
Proof.
  intros Hs. unfold _should_stop_execution, deadline_reached, elapsed_at.
  by rewrite Hs, Nat.add_0_r.
Qed.

Lemma deadline_reached_shift env st st' t0 i :
  ticks st' = S (ticks st) →
  deadline_reached env st' t0 i = deadline_reached env st t0 (S i).
Proof.
  intros Ht. unfold deadline_reached, elapsed_at.
  by rewrite Ht, Nat.add_succ_comm.
Qed.

(** The serial loop stops at the first deadline check that fails, having
    processed the records before it and no other. *)
Lemma run_serial_halts env docs st t0 k :
  start_time st = Some t0 →
  (k < length docs)%nat →
  deadline_reached env st t0 k = true →
  ∃ j, (j ≤ k)%nat
       ∧ run_serial env docs st = halted j (process_all env (take j docs) st).
Proof.
  revert st k. induction docs as [|doc docs IH]; intros st k Hs Hk Hd.
  { simpl in Hk. lia. }
  cbn [run_serial]. rewrite (should_stop_eq _ _ _ Hs).
  destruct (deadline_reached env st t0 0) eqn:H0.
  { exists 0%nat. split; [lia|done]. }
  destruct k as [|k]; [congruence|].
  destruct (IH (process_book env doc (tick st)) k) as (j & Hj & Heq).
  - by rewrite process_book_start_time.
  - simpl in Hk. lia.
  - by rewrite (deadline_reached_shift env st); [|rewrite process_book_ticks].
  - exists (S j). split; [lia|].
    rewrite Heq, process_book_tick, process_all_tick, halted_tick.
    by rewrite firstn_cons.
Qed.

(** So does the submission loop of the parallel mode. *)
Lemma submit_loop_halts env docs st t0 k :
  start_time st = Some t0 →
  (k < length docs)%nat →
  deadline_reached env st t0 k = true →
  ∃ j, (j ≤ k)%nat ∧ submit_loop env docs st = (take j docs, halted j st).
Proof.
  revert st k. induction docs as [|doc docs IH]; intros st k Hs Hk Hd.
  { simpl in Hk. lia. }
  cbn [submit_loop]. rewrite (should_stop_eq _ _ _ Hs).
  destruct (deadline_reached env st t0 0) eqn:H0.
  { exists 0%nat. split; [lia|done]. }
  destruct k as [|k]; [congruence|].
  destruct (IH (tick st) k) as (j & Hj & Heq).
  - done.
  - simpl in Hk. lia.
  - by rewrite (deadline_reached_shift env st).
  - exists (S j). split; [lia|].
    by rewrite Heq, halted_tick, firstn_cons.
Qed.

Lemma run_parallel_halts env docs st t0 k :
  start_time st = Some t0 →
  (k < length docs)%nat →
  deadline_reached env st t0 k = true →
  ∃ j, (j ≤ k)%nat
       ∧ run_parallel env docs st =
           halted j (process_all env (completion env (take j docs)) st).
Proof.
  intros Hs Hk Hd.
  destruct (submit_loop_halts env docs st t0 k Hs Hk Hd) as (j & Hj & Heq).
  exists j. split; [done|].
  unfold run_parallel. rewrite Heq. apply process_all_halted.
Qed.

(** ** Statistics that every step of a run preserves *)

Section StatsInvariant.
Variable env : Env.
Variable P : FixerStats → Prop.
Hypothesis P_process_book :
  ∀ doc st, P (stats st) → P (stats (process_book env doc st)).
Hypothesis P_timeout_stop : ∀ s, P s → P (set_timeout_stop s).
Hypothesis P_execution_time : ∀ t s, P s → P (set_execution_time t s).

Lemma should_stop_preserves st :
  P (stats st) → P (stats (_should_stop_execution env st).2).
Proof using P_timeout_stop.
  intros HP. unfold _should_stop_execution.
  destruct (start_time st); [|done].
  destruct (Qle_bool _ _); [|done]. by apply P_timeout_stop.
Qed.

Lemma process_all_preserves docs st :
  P (stats st) → P (stats (process_all env docs st)).
Proof using P_process_book.
  revert st. induction docs as [|doc docs IH]; intros st HP; [done|].
  apply IH. by apply P_process_book.
Qed.

Lemma run_serial_preserves docs st :
  P (stats st) → P (stats (run_serial env docs st)).
Proof using P_process_book P_timeout_stop.
  revert st. induction docs as [|doc docs IH]; intros st HP; [done|].
  cbn [run_serial].
  pose proof (should_stop_preserves st HP) as Hstop.
  destruct (_should_stop_execution env st) as [[] st']; [done|].
  apply IH. by apply P_process_book.
Qed.

Lemma submit_loop_preserves docs st :
  P (stats st) → P (stats (submit_loop env docs st).2).
Proof using P_timeout_stop.
  revert st. induction docs as [|doc docs IH]; intros st HP; [done|].
  cbn [submit_loop].
  pose proof (should_stop_preserves st HP) as Hstop.
  destruct (_should_stop_execution env st) as [[] st']; [done|].
  specialize (IH st' Hstop). by destruct (submit_loop env docs st').
Qed.

Lemma run_parallel_preserves docs st :
  P (stats st) → P (stats (run_parallel env docs st)).
Proof using P_process_book P_timeout_stop.
  intros HP. unfold run_parallel.
  pose proof (submit_loop_preserves docs st HP) as Hloop.
  destruct (submit_loop env docs st) as [futures st'].
  by apply process_all_preserves.
Qed.

Lemma run_preserves st : P (stats st) → P (stats (run env st)).
Proof using All.
  intros HP. unfold run. cbn [stats map_stats]. apply P_execution_time.
  cbn [stats tick].
  destruct (length _ =? 0)%nat; [done|].
  destruct (_ && _).
  - by apply run_parallel_preserves.
  - by apply run_serial_preserves.
Qed.
End StatsInvariant.

Lemma process_book_resolved env doc st :
  every_record_resolved (stats st) →
  every_record_resolved (stats (process_book env doc st)).
Proof.
  unfold every_record_resolved.
  process_book_cases env doc st; simpl; lia.
Qed.

Lemma process_book_links env doc st :
  links_within_scanned (stats st) →
  links_within_scanned (stats (process_book env doc st)).
Proof.
  unfold links_within_scanned.
  process_book_cases env doc st; simpl; lia.
Qed.

Lemma process_book_skipped env doc st :
  skipped_records (stats (process_book env doc st)) = skipped_records (stats st).
Proof. process_book_cases env doc st; reflexivity. Qed.

Lemma run_skipped env st :
  skipped_records (stats (run env st)) = skipped_records (stats st).
Proof.
  apply (run_preserves env (λ s, skipped_records s = skipped_records (stats st)));
    [|done..].
  intros doc st' HP. by rewrite process_book_skipped.
Qed.

Lemma run_preserves_bookkeeping env st :
  every_record_resolved (stats st) ∧ links_within_scanned (stats st) →
  every_record_resolved (stats (run env st)) ∧ links_within_scanned (stats (run env st)).
Proof.
  intros [Hr Hl]. split.
  - apply run_preserves; [apply process_book_resolved|done..].
  - apply run_preserves; [apply process_book_links|done..].
Qed.

(** ** What the edit set holds for a field *)

Lemma validate_book_status cfg book_data data_updates :
  validate_book cfg book_data = Ok data_updates →
  data_updates !! "status"%string =
    if bool_decide ("status"%string ∈ required_fields cfg
                    ∧ is_missing book_data "status" = true)
    then Some (USet (VStr (default_status cfg))) else None.
Proof.
  intros Hv. rewrite (validate_book_lookup _ _ _ _ Hv) by (left; by compute_done).
  repeat case_bool_decide; destruct_and?; try done; exfalso; auto.
Qed.

Lemma validate_book_category cfg book_data data_updates :
  validate_book cfg book_data = Ok data_updates →
  data_updates !! "category"%string =
    if bool_decide ("category"%string ∈ required_fields cfg
                    ∧ is_missing book_data "category" = true)
    then Some (USet (VStr (default_category cfg))) else None.
Proof.
  intros Hv. rewrite (validate_book_lookup _ _ _ _ Hv) by (left; by compute_done).
  repeat case_bool_decide; destruct_and?; try done; exfalso; auto.
Qed.

Lemma validate_book_other cfg book_data data_updates k :
  validate_book cfg book_data = Ok data_updates →
  k ∉ text_fields ∨ is_missing book_data k = true →
  k ≠ "category"%string → k ≠ "status"%string →
  data_updates !! k = None.
Proof.
  intros Hv Hk Hc Hs. rewrite (validate_book_lookup _ _ _ _ Hv Hk).
  repeat case_bool_decide; destruct_and?; done.
Qed.

Lemma link_edits_other env book_data k :
  k ≠ "status"%string → k ≠ "error_message"%string →
  link_edits env book_data !! k = None.
Proof.
  intros Hs He. unfold link_edits, repair_updates, broken_updates.
  repeat case_match; by rewrite ?lookup_insert_ne, ?lookup_empty.
Qed.

Lemma link_edits_status env book_data :
  link_edits env book_data !! "status"%string = None
  ∨ link_edits env book_data !! "status"%string = Some (USet (VStr BookStatus.PUBLISHED))
  ∨ link_edits env book_data !! "status"%string = Some (USet (VStr BookStatus.BROKEN)).
Proof.
  unfold link_edits, repair_updates, broken_updates.
  repeat case_match; auto.
Qed.

Lemma link_edits_no_url env book_data :
  truthy (dict_get book_data "download_url") = false →
  link_edits env book_data = ∅.
Proof. intros Hurl. unfold link_edits. by rewrite Hurl. Qed.

Lemma link_edits_working env book_data :
  truthy (dict_get book_data "download_url") = true →
  transport env (dict_get book_data "download_url") = Response 200 →
  link_edits env book_data = repair_updates book_data.
Proof. intros Hurl Ht. unfold link_edits. by rewrite Hurl, Ht. Qed.

Lemma final_updates_lookup env doc data_updates updates k :
  k ≠ "last_fixer_run"%string → k ≠ "last_checked"%string →
  final_updates env doc data_updates updates !! k =
    union_with (λ x _, Some x) (data_updates !! k) (updates !! k).
Proof.
  intros H1 H2. unfold final_updates.
  by rewrite !lookup_insert_ne, lookup_union by done.
Qed.

(** The edit set a call of [compute_updates] returned. *)
Lemma compute_updates_Ok env doc st st' updates :
  compute_updates env doc st = (st', Ok updates) →
  ∃ data_updates,
    validate_book (config env) (doc_data doc) = Ok data_updates
    ∧ updates = final_updates env doc data_updates (link_edits env (doc_data doc))
    ∧ st' = link_state env (doc_data doc) st.
Proof.
  rewrite compute_updates_eq. intros Heq.
  destruct (validate_book _ _) as [du|]; [|by simplify_eq].
  exists du. by simplify_eq.
Qed.

(** * The claims *)

(** ** Link Prober *)

(** C7, as the code has it, for a response that [session.head] returns
    (after the transport's redirects and retries). The link is reachable
    exactly when the status code of that response is 200; a returned
    response with another code, the codes from 201 to 299 among them, makes
    it unreachable with the detail [Status code: N]. Either way the URL
    went to the transport once. A status for which the retry policy of the
    session makes [session.head] raise is not a returned response. *)
Theorem check_link_status_code env url st status_code :
  truthy url = true →
  transport env url = Response status_code →
  check_link env url st =
    (log_head url st,
     Ok (if bool_decide (status_code = 200) then (true, None)
         else (false, Some (lit "Status code: " ++ lit (pretty status_code))))).
Proof.
  intros Hurl Ht. rewrite check_link_eq, Hurl, Ht. cbn [classify_head].
  destruct (Z.eqb_spec status_code 200) as [->|Hne].
  - by rewrite bool_decide_eq_true_2.
  - by rewrite bool_decide_eq_false_2.
Qed.

Lemma check_link_status_code_witness :
  check_link (sample_env sample_config 404) good_url (new_bot ∅) =
    (log_head good_url (new_bot ∅), Ok (false, Some (lit "Status code: 404"))).
Proof.
  apply (check_link_status_code (sample_env sample_config 404) good_url (new_bot ∅) 404);
    reflexivity.
Defined.

(** C7 fails as stated: a final response 204 is in the range from 200 to
    299 and the link is classified as unreachable. *)
Lemma check_link_204_unreachable :
  200 ≤ 204 ≤ 299
  ∧ (check_link (sample_env sample_config 204) good_url (new_bot ∅)).2 =
      Ok (false, Some (lit "Status code: 204")).
Proof. split; [lia|reflexivity]. Qed.

(** ** Record Validator *)

(** C9. The validator proposes nothing for a normalized record, and
    nothing again when it runs on the record that the (empty) edit set
    leaves. *)
Theorem validate_book_idempotent cfg book_data now :
  normalized cfg book_data = true →
  validate_book cfg book_data = Ok ∅
  ∧ validate_book cfg (apply_updates now ∅ book_data) = Ok ∅.
Proof.
  intros Hn. rewrite apply_updates_empty.
  split; by apply validate_book_normalized.
Qed.

Lemma validate_book_idempotent_witness :
  validate_book sample_config full_record = Ok ∅
  ∧ validate_book sample_config (apply_updates 0 ∅ full_record) = Ok ∅.
Proof.
  apply (validate_book_idempotent sample_config full_record 0).
  vm_compute. reflexivity.
Defined.

(** ** Statistics *)

(** C4, as the code has it. After every run of a fresh bot over any
    catalog, [fixed_records + skipped_records + errors = total_scanned] and
    [working_links + broken_links <= total_scanned]: a record whose
    processing failed after its link was counted is in [errors] as well,
    so [errors] is not part of the second sum. *)
Theorem run_bookkeeping env catalog :
  every_record_resolved (stats (run env (new_bot catalog)))
  ∧ links_within_scanned (stats (run env (new_bot catalog))).
Proof.
  apply run_preserves_bookkeeping.
  split; [reflexivity|]. unfold links_within_scanned. simpl. lia.
Qed.

(** C4 fails as stated: the link of the record works and is counted, then
    the validator raises on a title that is a number, and the record is
    counted as an error too. *)
Lemma run_counts_link_and_error :
  let s := stats (run (sample_env sample_config 200)
                      (new_bot (one_book numeric_title_record))) in
  ¬ (working_links s + broken_links s + errors s ≤ total_scanned s)%nat.
Proof. vm_compute. lia. Qed.

(** ** Per-record processing *)

(** C10. A call of [compute_updates] that returns an edit set returns one
    with the keys [last_checked] and [last_fixer_run], hence not empty; a
    record that [process_book] handles without counting an error gets one
    catalog write with such an edit set and raises [fixed_records] by one;
    and no run changes [skipped_records]. *)
Theorem processed_record_is_written env :
  (∀ doc st st' updates,
     compute_updates env doc st = (st', Ok updates) →
     updates !! "last_checked"%string = Some UServerTimestamp
     ∧ updates !! "last_fixer_run"%string = Some (USet (VStr (iso_now env (doc_id doc))))
     ∧ updates ≠ ∅)
  ∧ (∀ doc st,
       errors (stats (process_book env doc st)) = errors (stats st) →
       ∃ updates,
         (compute_updates env doc (map_stats bump_total_scanned st)).2 = Ok updates
         ∧ write_log (process_book env doc st) = write_log st ++ [(doc_id doc, updates)]
         ∧ fixed_records (stats (process_book env doc st)) = S (fixed_records (stats st))
         ∧ skipped_records (stats (process_book env doc st)) = skipped_records (stats st))
  ∧ (∀ st, skipped_records (stats (run env st)) = skipped_records (stats st)).
Proof.
  split; [|split].
  - intros doc st st' u Hu.
    apply compute_updates_Ok in Hu as (du & _ & -> & _).
    split; [|split]; [| |apply final_updates_non_empty]; unfold final_updates.
    + by rewrite lookup_insert_ne, lookup_insert_eq.
    + by rewrite lookup_insert_eq.
  - intros doc st. rewrite compute_updates_eq. cbn [snd].
    process_book_cases env doc st; simpl; try lia; intros _; eauto.
  - apply run_skipped.
Qed.

Lemma processed_record_is_written_witness :
  ∃ updates,
    (compute_updates (sample_env sample_config 200) (mkDoc "book1" full_record)
       (map_stats bump_total_scanned (new_bot (one_book full_record)))).2 = Ok updates
    ∧ write_log (process_book (sample_env sample_config 200) (mkDoc "book1" full_record)
                   (new_bot (one_book full_record))) = [] ++ [("book1"%string, updates)]
    ∧ fixed_records (stats (process_book (sample_env sample_config 200)
                              (mkDoc "book1" full_record)
                              (new_bot (one_book full_record)))) = 1%nat
    ∧ skipped_records (stats (process_book (sample_env sample_config 200)
                                (mkDoc "book1" full_record)
                                (new_bot (one_book full_record)))) = 0%nat.
Proof.
  apply (proj1 (proj2 (processed_record_is_written (sample_env sample_config 200)))
           (mkDoc "book1" full_record) (new_bot (one_book full_record))).
  vm_compute. reflexivity.
Defined.

(** C2, as the code has it. For a record whose probe returns 200, that was
    not broken and for which the validator proposes nothing, the edit set
    holds the two bookkeeping keys [last_checked] and [last_fixer_run] and
    no other; it is written to the catalog in one update, which sets
    [last_checked] to the server time. *)
Theorem clean_record_is_stamped env doc st record :
  truthy (dict_get (doc_data doc) "download_url") = true →
  transport env (dict_get (doc_data doc) "download_url") = Response 200 →
  eq_str (dict_get (doc_data doc) "status") BookStatus.BROKEN = false →
  validate_book (config env) (doc_data doc) = Ok ∅ →
  db st !! doc_id doc = Some record →
  let stamps : gmap string update_value :=
    <["last_fixer_run"%string := USet (VStr (iso_now env (doc_id doc)))]>
      (<["last_checked"%string := UServerTimestamp]> ∅) in
  (compute_updates env doc st).2 = Ok stamps
  ∧ write_log (process_book env doc st) = write_log st ++ [(doc_id doc, stamps)]
  ∧ db (process_book env doc st) !! doc_id doc =
      Some (apply_updates (server_time env (doc_id doc)) stamps record)
  ∧ apply_updates (server_time env (doc_id doc)) stamps record !! "last_checked"%string =
      Some (VTime (server_time env (doc_id doc))).
Proof.
  intros Hurl Ht Hs Hv Hdb stamps.
  assert (final_updates env doc ∅ (link_edits env (doc_data doc)) = stamps) as Hfin.
  { rewrite link_edits_working by done. unfold repair_updates. rewrite Hs.
    unfold final_updates. by rewrite (left_id_L ∅ (∪)). }
  rewrite compute_updates_eq, process_book_eq, Hv, Hdb, Hfin.
  cbn [snd stats db write_log map_stats committed].
  rewrite link_state_db. cbn [db map_stats]. rewrite lookup_insert_eq.
  repeat split; try done.
  - unfold link_state. by destruct (truthy _).
  - by rewrite apply_updates_lookup.
Qed.

Lemma clean_record_is_stamped_witness :
  let env := sample_env sample_config 200 in
  let doc := mkDoc "book1" full_record in
  let st := new_bot (one_book full_record) in
  let stamps : gmap string update_value :=
    <["last_fixer_run"%string := USet (VStr (iso_now env (doc_id doc)))]>
      (<["last_checked"%string := UServerTimestamp]> ∅) in
  (compute_updates env doc st).2 = Ok stamps
  ∧ write_log (process_book env doc st) = write_log st ++ [(doc_id doc, stamps)]
  ∧ db (process_book env doc st) !! doc_id doc =
      Some (apply_updates (server_time env (doc_id doc)) stamps full_record)
  ∧ apply_updates (server_time env (doc_id doc)) stamps full_record !! "last_checked"%string =
      Some (VTime (server_time env (doc_id doc))).
Proof.
  apply (clean_record_is_stamped (sample_env sample_config 200)
           (mkDoc "book1" full_record) (new_bot (one_book full_record)) full_record);
    vm_compute; reflexivity.
Defined.

(** C2 fails as stated: the probe of the record returns 200 and neither the
    link step nor the validator proposes an edit, yet the edit set has two
    entries, the catalog is written, and [skipped_records] stays at 0. *)
Lemma clean_record_is_not_skipped :
  let env := sample_env sample_config 200 in
  let doc := mkDoc "book1" full_record in
  let st := new_bot (one_book full_record) in
  transport env (dict_get full_record "download_url") = Response 200
  ∧ link_edits env full_record = ∅
  ∧ validate_book (config env) full_record = Ok ∅
  ∧ match (compute_updates env doc st).2 with
    | Ok updates => size updates = 2%nat
    | Raise _ => False
    end
  ∧ length (write_log (process_book env doc st)) = 1%nat
  ∧ skipped_records (stats (process_book env doc st)) = 0%nat.
Proof. cbv zeta. repeat split; vm_compute; reflexivity. Qed.

(** C3, as the code has it. For an absent or empty URL [check_link]
    answers unreachable with the detail [URL missing] and sends nothing to
    the transport. [process_book] does not call it for such a record: the
    transport trace and the counters [working_links] and [broken_links]
    stay as they were, the edit set has no [error_message], and its
    [status], if any, is the validator's default for a missing status. *)
Theorem missing_url_is_not_probed env doc st :
  truthy (dict_get (doc_data doc) "download_url") = false →
  check_link env (dict_get (doc_data doc) "download_url") st =
    (st, Ok (false, Some (lit "URL missing")))
  ∧ head_log (process_book env doc st) = head_log st
  ∧ working_links (stats (process_book env doc st)) = working_links (stats st)
  ∧ broken_links (stats (process_book env doc st)) = broken_links (stats st)
  ∧ ∀ st' updates,
      compute_updates env doc st = (st', Ok updates) →
      updates !! "error_message"%string = None
      ∧ updates !! "status"%string =
          if bool_decide ("status"%string ∈ required_fields (config env)
                          ∧ is_missing (doc_data doc) "status" = true)
          then Some (USet (VStr (default_status (config env)))) else None.
Proof.
  intros Hurl. split; [by rewrite check_link_eq, Hurl|].
  split; [|split; [|split]].
  1-3: rewrite process_book_eq; unfold link_state; rewrite Hurl; cbn zeta;
       destruct (validate_book _ _); [destruct (db st !! doc_id doc)|]; reflexivity.
  intros st' updates Hu.
  apply compute_updates_Ok in Hu as (du & Hv & -> & _).
  rewrite !final_updates_lookup by done.
  rewrite link_edits_no_url, !lookup_empty by done.
  split.
  - by rewrite (validate_book_other _ _ _ _ Hv) by (done || left; by compute_done).
  - rewrite (validate_book_status _ _ _ Hv). by case_bool_decide.
Qed.

Lemma missing_url_is_not_probed_witness :
  let env := sample_env sample_config 200 in
  let doc := mkDoc "book1" no_url_record in
  let st := new_bot (one_book no_url_record) in
  check_link env (dict_get (doc_data doc) "download_url") st =
    (st, Ok (false, Some (lit "URL missing")))
  ∧ head_log (process_book env doc st) = head_log st
  ∧ working_links (stats (process_book env doc st)) = working_links (stats st)
  ∧ broken_links (stats (process_book env doc st)) = broken_links (stats st)
  ∧ ∀ st' updates,
      compute_updates env doc st = (st', Ok updates) →
      updates !! "error_message"%string = None
      ∧ updates !! "status"%string =
          if bool_decide ("status"%string ∈ required_fields (config env)
                          ∧ is_missing (doc_data doc) "status" = true)
          then Some (USet (VStr (default_status (config env)))) else None.
Proof.
  apply (missing_url_is_not_probed (sample_env sample_config 200)
           (mkDoc "book1" no_url_record) (new_bot (one_book no_url_record))).
  vm_compute. reflexivity.
Defined.

(** C3 fails as stated: the record has an empty URL and status
    [published]; its edit set has neither [status] nor [error_message], and
    [broken_links] stays at 0. *)
Lemma missing_url_is_not_flagged :
  let env := sample_env sample_config 200 in
  let doc := mkDoc "book1" no_url_record in
  let st := new_bot (one_book no_url_record) in
  match compute_updates env doc st with
  | (_, Ok updates) =>
      updates !! "status"%string = None
      ∧ updates !! "error_message"%string = None
  | (_, Raise _) => False
  end
  ∧ broken_links (stats (process_book env doc st)) = 0%nat.
Proof. vm_compute. auto. Qed.

(** C6, as the code has it. For a record whose probe succeeds and whose
    stored status is there, not empty and not [broken], the edit set has no
    [status] key. *)
Theorem reachable_record_keeps_status env doc st st' updates :
  truthy (dict_get (doc_data doc) "download_url") = true →
  transport env (dict_get (doc_data doc) "download_url") = Response 200 →
  is_missing (doc_data doc) "status" = false →
  eq_str (dict_get (doc_data doc) "status") BookStatus.BROKEN = false →
  compute_updates env doc st = (st', Ok updates) →
  updates !! "status"%string = None.
Proof.
  intros Hurl Ht Hm Hs Hu.
  apply compute_updates_Ok in Hu as (du & Hv & -> & _).
  rewrite final_updates_lookup by done.
  rewrite (validate_book_status _ _ _ Hv), Hm.
  rewrite bool_decide_eq_false_2 by (by intros [_ ?]).
  rewrite link_edits_working by done. unfold repair_updates. by rewrite Hs.
Qed.

Lemma reachable_record_keeps_status_witness :
  sample_updates good_record !! "status"%string = None.
Proof.
  apply (reachable_record_keeps_status (sample_env sample_config 200)
           (mkDoc "book1" good_record) (new_bot (one_book good_record))
           (sample_run good_record).1 (sample_updates good_record));
    vm_compute; reflexivity.
Defined.

(** C6 fails as stated: the probe of the record succeeds and its status is
    not [broken], for it has none; the validator puts the default status
    into the edit set. *)
Lemma reachable_record_gets_default_status :
  let env := sample_env sample_config 200 in
  let doc := mkDoc "book1" no_status_record in
  (check_link env (dict_get no_status_record "download_url")
     (new_bot (one_book no_status_record))).2 = Ok (true, None)
  ∧ eq_str (dict_get no_status_record "status") BookStatus.BROKEN = false
  ∧ match compute_updates env doc (new_bot (one_book no_status_record)) with
    | (_, Ok updates) =>
        updates !! "status"%string = Some (USet (VStr BookStatus.PUBLISHED))
    | (_, Raise _) => False
    end.
Proof. vm_compute. auto. Qed.

(** C5, as the code has it. When [category] and [status] are required and
    their configured defaults are not empty, both are there and not empty
    in the record that the edit set leaves. [download_url] is left as
    stored, and so is a [bangla_title] that is missing or empty: the engine
    makes up neither. *)
Theorem reconciled_required_fields env doc st st' updates now :
  "category"%string ∈ required_fields (config env) →
  "status"%string ∈ required_fields (config env) →
  default_category (config env) ≠ [] →
  default_status (config env) ≠ [] →
  compute_updates env doc st = (st', Ok updates) →
  is_missing (apply_updates now updates (doc_data doc)) "category" = false
  ∧ is_missing (apply_updates now updates (doc_data doc)) "status" = false
  ∧ apply_updates now updates (doc_data doc) !! "download_url"%string =
      doc_data doc !! "download_url"%string
  ∧ (is_missing (doc_data doc) "bangla_title" = true →
     apply_updates now updates (doc_data doc) !! "bangla_title"%string =
       doc_data doc !! "bangla_title"%string).
Proof.
  intros Hc Hs Hdc Hds Hu.
  apply compute_updates_Ok in Hu as (du & Hv & -> & _).
  unfold is_missing at 1 2.
  rewrite !apply_updates_lookup, !final_updates_lookup by done.
  rewrite (validate_book_category _ _ _ Hv), (validate_book_status _ _ _ Hv).
  rewrite (validate_book_other _ _ _ "download_url" Hv) by (done || left; by compute_done).
  rewrite !(link_edits_other _ _ "category"), !(link_edits_other _ _ "download_url") by done.
  split; [|split; [|split; [done|]]].
  - case_bool_decide as Hm; simpl.
    { by rewrite bool_decide_eq_false_2. }
    unfold is_missing in Hm. destruct (doc_data doc !! "category"%string) as [v|].
    + destruct (truthy v); [done|]. exfalso. by apply Hm.
    + exfalso. by apply Hm.
  - destruct (link_edits_status env (doc_data doc)) as [-> | [-> | ->]];
      case_bool_decide as Hm; simpl; try done.
    1,3,4: by rewrite bool_decide_eq_false_2.
    unfold is_missing in Hm. destruct (doc_data doc !! "status"%string) as [v|].
    + destruct (truthy v); [done|]. exfalso. by apply Hm.
    + exfalso. by apply Hm.
  - intros Hm.
    rewrite (validate_book_other _ _ _ "bangla_title" Hv) by (done || by right).
    by rewrite link_edits_other.
Qed.

Lemma reconciled_required_fields_witness :
  is_missing (apply_updates 0 (sample_updates good_record) good_record) "category" = false
  ∧ is_missing (apply_updates 0 (sample_updates good_record) good_record) "status" = false
  ∧ apply_updates 0 (sample_updates good_record) good_record !! "download_url"%string =
      good_record !! "download_url"%string
  ∧ (is_missing good_record "bangla_title" = true →
     apply_updates 0 (sample_updates good_record) good_record !! "bangla_title"%string =
       good_record !! "bangla_title"%string).
Proof.
  apply (reconciled_required_fields (sample_env sample_config 200)
           (mkDoc "book1" good_record) (new_bot (one_book good_record))
           (sample_run good_record).1 (sample_updates good_record) 0);
    vm_compute; (reflexivity || congruence || set_solver).
Defined.

(** C5 fails as stated: the record has no [bangla_title]; it is processed
    without error, and the record the catalog holds afterwards still has
    none. *)
Lemma reconciled_record_without_title :
  let env := sample_env sample_config 200 in
  let st := process_book env (mkDoc "book1" good_record) (new_bot (one_book good_record)) in
  errors (stats st) = 0%nat
  ∧ match db st !! "book1"%string with
    | Some record => is_missing record "bangla_title" = true
    | None => False
    end.
Proof. vm_compute. auto. Qed.

(** ** Verification Scheduler *)

Lemma stats_ticks n st : stats (Nat.iter n tick st) = stats st.
Proof. induction n as [|n IH]; [done|]. by rewrite Nat.iter_succ. Qed.

(** C8. Let the [k]-th deadline check of a run (counted from 0, one check
    before each record) see an elapsed time that reached
    [max_execution_time]. Then the run stopped at a check [j <= k]: the
    records processed are the first [j] of the working set and no other (in
    parallel mode in the order the pool completes them), the timeout flag
    is set, and the error counter is that of the processed records: the
    stop is not counted as an error. *)
Theorem deadline_stops_dispatch env st k :
  let t0 := clock env (ticks st) in
  let st1 := set_start_time t0 (tick st) in
  let docs := stream (_get_query env) (db st) in
  (k < length docs)%nat →
  deadline_reached env st1 t0 k = true →
  ∃ j, (j ≤ k)%nat ∧
    let order := if enable_parallel (config env) && (5 <? length docs)%nat
                 then completion env (take j docs) else take j docs in
    let st2 := halted j (process_all env order st1) in
    run env st = map_stats (set_execution_time (clock env (ticks st2) - t0)%Q) (tick st2)
    ∧ timeout_stop (stats (run env st)) = true
    ∧ errors (stats (run env st)) = errors (stats (process_all env order st1)).
Proof.
  intros t0 st1 docs Hk Hd.
  assert (start_time st1 = Some t0) as Hs by done.
  assert (∀ j order,
            (if (length docs =? 0)%nat then st1
             else if enable_parallel (config env) && (5 <? length docs)%nat
                  then run_parallel env docs st1 else run_serial env docs st1)
              = halted j (process_all env order st1) →
            let st2 := halted j (process_all env order st1) in
            run env st = map_stats (set_execution_time (clock env (ticks st2) - t0)%Q) (tick st2)
            ∧ timeout_stop (stats (run env st)) = true
            ∧ errors (stats (run env st)) = errors (stats (process_all env order st1)))
    as Hrun.
  { intros j order Heq st2.
    assert (run env st =
              map_stats (set_execution_time (clock env (ticks st2) - t0)%Q) (tick st2))
      as -> by (unfold st2; by rewrite <- Heq).
    split; [done|].
    unfold st2, halted. cbn [stats map_stats tick set_execution_time set_timeout_stop
                              timeout_stop errors].
    by rewrite stats_ticks. }
  destruct (Nat.eqb_spec (length docs) 0) as [H0|_]; [lia|].
  destruct (enable_parallel (config env) && (5 <? length docs)%nat).
  - destruct (run_parallel_halts env docs st1 t0 k Hs Hk Hd) as (j & Hj & Heq).
    exists j. split; [done|]. by apply Hrun.
  - destruct (run_serial_halts env docs st1 t0 k Hs Hk Hd) as (j & Hj & Heq).
    exists j. split; [done|]. by apply Hrun.
Qed.

Lemma deadline_stops_dispatch_witness :
  timeout_stop (stats (run (sample_env sample_config 200) (new_bot two_books))) = true.
Proof.
  destruct (deadline_stops_dispatch (sample_env sample_config 200) (new_bot two_books) 1)
    as (j & _ & _ & Hflag & _).
  - vm_compute. lia.
  - vm_compute. reflexivity.
  - exact Hflag.
Defined.

(** ** Staleness Selector *)

Lemma stream_smart_filter env catalog doc :
  enable_smart_filter (config env) = true →
  doc ∈ stream (_get_query env) catalog →
  ∃ t, doc_data doc !! "last_checked"%string = Some (VTime t) ∧ t < cutoff_date env.
Proof.
  intros Hsmart. unfold stream, _get_query. rewrite Hsmart. cbn [where_last_checked_lt limit].
  intros Hin.
  assert (doc ∈ List.filter (λ d, matches_lt (cutoff_date env) (doc_data d))
                  ((λ p, mkDoc p.1 p.2) <$> map_to_list catalog)) as Hf.
  { destruct (batch_size (config env)) as [n|]; [|done].
    destruct (n =? 0)%nat; [done|]. by eapply subseteq_take. }
  apply list_elem_of_In, filter_In in Hf as [_ Hm].
  unfold matches_lt in Hm.
  destruct (doc_data doc !! "last_checked"%string) as [[| | | |t]|]; try done.
  exists t. split; [done|]. by apply Z.ltb_lt.
Qed.

(** The part of C1 that holds: without a batch cap, a record whose
    [last_checked] is a timestamp before the cutoff is in the working set. *)
Lemma stream_selects_stale env catalog id record t :
  enable_smart_filter (config env) = true →
  batch_size (config env) = None →
  catalog !! id = Some record →
  record !! "last_checked"%string = Some (VTime t) →
  t < cutoff_date env →
  mkDoc id record ∈ stream (_get_query env) catalog.
Proof.
  intros Hsmart Hb Hc Hl Ht. unfold stream, _get_query. rewrite Hsmart, Hb.
  cbn [where_last_checked_lt limit].
  apply list_elem_of_In, filter_In. split.
  - apply list_elem_of_In, list_elem_of_fmap. exists (id, record).
    split; [done|]. by apply elem_of_map_to_list.
  - unfold matches_lt. cbn [doc_data]. rewrite Hl. by apply Z.ltb_lt.
Qed.

(** C1 on the code: smart filtering is on, the only record of the catalog
    was never checked (it has no [last_checked]), and the working set is
    empty: the run scans nothing. *)
Theorem never_checked_record_is_not_selected :
  let env := sample_env smart_config 200 in
  enable_smart_filter (config env) = true
  ∧ good_record !! "last_checked"%string = None
  ∧ stream (_get_query env) (one_book good_record) = []
  ∧ total_scanned (stats (run env (new_bot (one_book good_record)))) = 0%nat.
Proof. vm_compute. auto. Qed.

(** * Further properties of the code *)

(** ** Trimming *)

Lemma lstrip_lstrip s : lstrip (lstrip s) = lstrip s.
Proof.
  induction s as [|c s IH]; [done|].
  cbn [lstrip]. destruct (isspace c) eqn:Hc; [done|].
  cbn [lstrip]. by rewrite Hc.
Qed.

Lemma lstrip_snoc s c : isspace c = false → lstrip (s ++ [c]) = lstrip s ++ [c].
Proof.
  intros Hc. induction s as [|d s IH]; cbn [lstrip app].
  - by rewrite Hc.
  - by destruct (isspace d).
Qed.

Lemma rstrip_cons s c : isspace c = false → rstrip (c :: s) = c :: rstrip s.
Proof.
  intros Hc. unfold rstrip.
  by rewrite reverse_cons, lstrip_snoc, reverse_app by done.
Qed.

Lemma rstrip_rstrip s : rstrip (rstrip s) = rstrip s.
Proof. unfold rstrip. by rewrite reverse_involutive, lstrip_lstrip. Qed.

Lemma lstrip_head s :
  lstrip s = [] ∨ ∃ c t, lstrip s = c :: t ∧ isspace c = false.
Proof.
  induction s as [|c s IH]; [by left|].
  cbn [lstrip]. destruct (isspace c) eqn:Hc; [done|]. right. by exists c, s.
Qed.

Lemma strip_strip s : strip (strip s) = strip s.
Proof.
  unfold strip. destruct (lstrip_head s) as [->|(c & t & -> & Hc)]; [done|].
  rewrite rstrip_cons by done. cbn [lstrip]. rewrite Hc.
  by rewrite <- rstrip_cons, rstrip_rstrip.
Qed.

(** ** The validator, field by field *)

Lemma trim_field_bad book_data f updates :
  bad_text book_data f = true → trim_field book_data f updates = Raise AttributeError.
Proof.
  unfold bad_text, trim_field. destruct (book_data !! f) as [v|]; [|done].
  intros [Ht Hs]%andb_true_iff. rewrite Ht. by destruct v.
Qed.

Lemma trim_field_good book_data f updates :
  bad_text book_data f = false →
  trim_field book_data f updates =
    Ok (from_option (λ e, <[f := e]> updates) updates (trim_edit book_data f)).
Proof.
  unfold bad_text, trim_field, trim_edit.
  destruct (book_data !! f) as [v|]; [|done].
  destruct v as [|b|n|s|t]; cbn [truthy is_str negb andb value_strip]; intros Hb.
  1-3,5: by rewrite ?andb_true_r in Hb; rewrite ?Hb.
  destruct (decide (s = [])) as [->|Hs].
  { rewrite bool_decide_eq_true_2 by done. cbn [negb].
    by rewrite bool_decide_eq_false_2 by (by intros [? _]). }
  rewrite (bool_decide_eq_false_2 (s = [])) by done. cbn [negb].
  destruct (decide (strip s = s)) as [He|He].
  - rewrite !bool_decide_eq_false_2; [done| |].
    + by intros [_ ?].
    + intros Hne. apply Hne. by rewrite He.
  - rewrite !bool_decide_eq_true_2; [done|..]; first [done | congruence | by split].
Qed.

(** X1. The validator raises exactly when one of the three text fields
    holds a truthy value that is not a string, and what it raises is
    [AttributeError]; on every other record it returns an edit set. *)
Theorem validate_book_raises cfg book_data :
  match validate_book cfg book_data with
  | Ok _ => existsb (bad_text book_data) text_fields = false
  | Raise e => e = AttributeError ∧ existsb (bad_text book_data) text_fields = true
  end.
Proof.
  unfold validate_book, text_fields. cbn [existsb].
  destruct (bad_text book_data "bangla_title") eqn:Hb.
  { by rewrite trim_field_bad. }
  rewrite trim_field_good by done.
  destruct (bad_text book_data "english_title") eqn:He.
  { by rewrite trim_field_bad. }
  rewrite trim_field_good by done.
  destruct (bad_text book_data "author") eqn:Ha.
  { by rewrite trim_field_bad. }
  by rewrite trim_field_good.
Qed.

Lemma validate_book_Ok_text cfg book_data data_updates f :
  validate_book cfg book_data = Ok data_updates →
  f ∈ text_fields → bad_text book_data f = false.
Proof.
  intros Hv Hf. pose proof (validate_book_raises cfg book_data) as Hr.
  rewrite Hv in Hr. unfold text_fields in *. cbn [existsb] in Hr.
  rewrite !orb_false_iff in Hr. destruct Hr as (? & ? & ? & _).
  set_solver.
Qed.

Lemma validate_book_text_lookup cfg book_data data_updates f :
  validate_book cfg book_data = Ok data_updates →
  f ∈ text_fields →
  data_updates !! f = trim_edit book_data f.
Proof.
  intros Hv Hf.
  assert (∀ g, g ∈ text_fields → bad_text book_data g = false) as Hgood
    by (intros g; by eapply validate_book_Ok_text).
  revert Hv. unfold validate_book.
  rewrite !trim_field_good by (apply Hgood; set_solver).
  intros [= <-].
  assert (∀ u : gmap string update_value,
            u = foldl (default_step cfg book_data) ∅ (required_fields cfg) →
            u !! f = None) as Hnone.
  { intros u ->. rewrite defaults_lookup, lookup_empty.
    rewrite !bool_decide_eq_false_2; [done|..];
      intros (_ & _ & ->); set_solver. }
  specialize (Hnone _ eq_refl).
  set (u0 := foldl _ _ _) in *.
  apply list_elem_of_In in Hf. cbn [text_fields In] in Hf.
  destruct Hf as [<-|[<-|[<-|[]]]];
    destruct (trim_edit book_data "bangla_title") as [eb|];
    destruct (trim_edit book_data "english_title") as [ee|];
    destruct (trim_edit book_data "author") as [ea|]; cbn [from_option];
    repeat (rewrite lookup_insert_eq || rewrite lookup_insert_ne by done);
    done.
Qed.

(** X2. Every edit the validator proposes is either the configured default
    for a required [category] or [status] that is missing or empty, or the
    trimmed form of a text field that holds a non-empty string with
    surrounding whitespace. It edits no other field. *)
Theorem validate_book_edits cfg book_data data_updates k e :
  validate_book cfg book_data = Ok data_updates →
  data_updates !! k = Some e →
  (k ∈ required_fields cfg ∧ is_missing book_data k = true
   ∧ (k = "category"%string ∧ e = USet (VStr (default_category cfg))
      ∨ k = "status"%string ∧ e = USet (VStr (default_status cfg))))
  ∨ (k ∈ text_fields
     ∧ ∃ s, book_data !! k = Some (VStr s) ∧ s ≠ [] ∧ strip s ≠ s
            ∧ e = USet (VStr (strip s))).
Proof.
  intros Hv Hk. destruct (decide (k ∈ text_fields)) as [Ht|Ht].
  - right. split; [done|].
    rewrite (validate_book_text_lookup _ _ _ _ Hv Ht) in Hk.
    unfold trim_edit in Hk.
    destruct (book_data !! k) as [[| | |s|]|]; try done.
    case_bool_decide as Hs; [|done]. destruct Hs. exists s. by simplify_eq.
  - left. rewrite (validate_book_lookup _ _ _ _ Hv) in Hk by (by left).
    repeat case_bool_decide; destruct_and?; simplify_eq; auto.
Qed.

Lemma validate_book_edits_witness :
  (("category"%string ∈ required_fields sample_config
    ∧ is_missing good_record "category" = true
    ∧ ("category"%string = "category"%string
       ∧ USet (VStr (lit "novel")) = USet (VStr (default_category sample_config))
       ∨ "category"%string = "status"%string
         ∧ USet (VStr (lit "novel")) = USet (VStr (default_status sample_config))))
   ∨ ("category"%string ∈ text_fields
      ∧ ∃ s, good_record !! "category"%string = Some (VStr s) ∧ s ≠ [] ∧ strip s ≠ s
             ∧ USet (VStr (lit "novel")) = USet (VStr (strip s)))).
Proof.
  apply (validate_book_edits sample_config good_record
           (<["category"%string := USet (VStr (lit "novel"))]> ∅));
    vm_compute; reflexivity.
Defined.

Lemma defaults_none cfg book_data fields :
  (∀ k, k ∈ fields → k = "category"%string ∨ k = "status"%string →
        is_missing book_data k = false) →
  foldl (default_step cfg book_data) ∅ fields = ∅.
Proof.
  intros Hk. apply map_eq. intros k. rewrite defaults_lookup, lookup_empty.
  rewrite !bool_decide_eq_false_2; [done|..]; intros (Hin & Hm & ->);
    rewrite Hk in Hm by auto; done.
Qed.

Lemma truthy_VStr s : s ≠ [] → truthy (VStr s) = true.
Proof. intros Hs. cbn [truthy]. by rewrite bool_decide_eq_false_2. Qed.

(** X3. The validator converges in one step: when the configured defaults
    are not empty, the record that its edit set leaves needs no edit. *)
Theorem validate_book_converges cfg book_data data_updates now :
  default_category cfg ≠ [] →
  default_status cfg ≠ [] →
  validate_book cfg book_data = Ok data_updates →
  validate_book cfg (apply_updates now data_updates book_data) = Ok ∅.
Proof.
  intros Hdc Hds Hv.
  set (after := apply_updates now data_updates book_data).
  assert (foldl (default_step cfg after) ∅ (required_fields cfg) = ∅) as Hdef.
  { apply defaults_none. intros k Hin Hk. unfold is_missing, after.
    rewrite apply_updates_lookup.
    destruct Hk as [->| ->].
    - rewrite (validate_book_category _ _ _ Hv).
      case_bool_decide as Hm; cbn [apply_field].
      + by rewrite truthy_VStr.
      + unfold is_missing in Hm. destruct (book_data !! "category"%string) as [v|].
        * destruct (truthy v); [done|]. exfalso. by apply Hm.
        * exfalso. by apply Hm.
    - rewrite (validate_book_status _ _ _ Hv).
      case_bool_decide as Hm; cbn [apply_field].
      + by rewrite truthy_VStr.
      + unfold is_missing in Hm. destruct (book_data !! "status"%string) as [v|].
        * destruct (truthy v); [done|]. exfalso. by apply Hm.
        * exfalso. by apply Hm. }
  assert (∀ f, f ∈ text_fields → from_option trimmed true (after !! f) = true) as Htrim.
  { intros f Hf. unfold after.
    rewrite apply_updates_lookup, (validate_book_text_lookup _ _ _ _ Hv Hf).
    pose proof (validate_book_Ok_text _ _ _ _ Hv Hf) as Hgood.
    unfold trim_edit, bad_text in *.
    destruct (book_data !! f) as [v|]; [|done].
    destruct v as [|b|n|s|t]; cbn [apply_field from_option trimmed truthy is_str negb] in *;
      rewrite ?andb_true_r in Hgood; rewrite ?Hgood; try done.
    clear Hgood.
    destruct (bool_decide (s ≠ [] ∧ strip s ≠ s)) eqn:Hs;
      cbn [apply_field from_option trimmed]; apply bool_decide_eq_true.
    - apply strip_strip.
    - apply bool_decide_eq_false in Hs.
      destruct (decide (s = [])) as [->|Hne]; [done|].
      destruct (decide (strip s = s)) as [|Hst]; [done|]. exfalso. by apply Hs. }
  unfold validate_book. rewrite Hdef.
  rewrite !trim_field_trimmed; [done|apply Htrim; set_solver..].
Qed.

Lemma validate_book_converges_witness :
  validate_book sample_config
    (apply_updates 0 (<["category"%string := USet (VStr (lit "novel"))]> ∅) good_record)
    = Ok ∅.
Proof.
  apply (validate_book_converges sample_config good_record
           (<["category"%string := USet (VStr (lit "novel"))]> ∅) 0);
    vm_compute; (reflexivity || congruence).
Defined.

(** ** Link Prober *)

Lemma classify_head_unreachable r :
  r ≠ Response 200 → ∃ detail, classify_head r = (false, Some detail).
Proof.
  destruct r as [code| | |msg]; cbn [classify_head]; intros Hr; eauto.
  destruct (Z.eqb_spec code 200) as [->|]; [done|eauto].
Qed.

(** X4. [check_link] never raises and sends at most one request: for every
    URL it returns a pair, the URL goes to the transport once when it is
    truthy and not at all otherwise, the link is reported working exactly
    when the URL is truthy and the final response is 200, and a detail
    comes with every link that is not working and with no working one. *)
Theorem check_link_outcome env url st :
  ∃ is_working detail,
    check_link env url st =
      (if truthy url then log_head url st else st, Ok (is_working, detail))
    ∧ (is_working = true ↔ truthy url = true ∧ transport env url = Response 200)
    ∧ (is_working = true ↔ detail = None).
Proof.
  rewrite check_link_eq. destruct (truthy url).
  2: { exists false, (Some (lit "URL missing")). repeat split; try done. by intros []. }
  destruct (decide (transport env url = Response 200)) as [Ht|Ht].
  - rewrite Ht. exists true, None. by repeat split.
  - destruct (classify_head_unreachable _ Ht) as (d & ->).
    exists false, (Some d). repeat split; try done. by intros [].
Qed.

(** X5. An exception of the transport that is neither a timeout nor a
    connection error is reported as a link that does not work, with a
    detail that starts with [Unknown error: ] and has at most 65
    characters. *)
Theorem check_link_unknown_error env url st msg :
  truthy url = true →
  transport env url = RaisesOther msg →
  ∃ detail,
    (check_link env url st).2 = Ok (false, Some (lit "Unknown error: " ++ detail))
    ∧ detail = take 50 msg
    ∧ (length (lit "Unknown error: " ++ detail) ≤ 65)%nat.
Proof.
  intros Hurl Ht. rewrite check_link_eq, Hurl, Ht. cbn [snd classify_head].
  exists (take 50 msg). repeat split.
  rewrite length_app, length_take.
  change (length (lit "Unknown error: ")) with 15%nat. lia.
Qed.

Lemma check_link_unknown_error_witness :
  ∃ detail,
    (check_link (mkEnv sample_config (λ _, RaisesOther (lit "Invalid URL"))
                       (λ _, 0%Q) 0 (λ _, 0) (λ _, []) id)
                good_url (new_bot ∅)).2
      = Ok (false, Some (lit "Unknown error: " ++ detail))
    ∧ detail = take 50 (lit "Invalid URL")
    ∧ (length (lit "Unknown error: " ++ detail) ≤ 65)%nat.
Proof.
  apply (check_link_unknown_error
           (mkEnv sample_config (λ _, RaisesOther (lit "Invalid URL"))
                  (λ _, 0%Q) 0 (λ _, 0) (λ _, []) id)
           good_url (new_bot ∅) (lit "Invalid URL")); reflexivity.
Defined.

(** ** The edit set of a record whose link is broken or repaired *)

(** X6. For a record whose URL is truthy and whose probe does not end
    with a response 200, the edit set carries the probe's detail as
    [error_message], and [broken_links] grows by one. Its [status] is
    [broken] when the record has a status; when the status is missing or
    empty and required, the validator's default replaces [broken]. *)
Theorem broken_link_edits env doc st st' updates :
  truthy (dict_get (doc_data doc) "download_url") = true →
  transport env (dict_get (doc_data doc) "download_url") ≠ Response 200 →
  compute_updates env doc st = (st', Ok updates) →
  (∃ detail,
     (classify_head (transport env (dict_get (doc_data doc) "download_url"))).2
       = Some detail
     ∧ updates !! "error_message"%string = Some (USet (VStr detail)))
  ∧ updates !! "status"%string =
      Some (USet (VStr (if bool_decide ("status"%string ∈ required_fields (config env)
                                        ∧ is_missing (doc_data doc) "status" = true)
                        then default_status (config env)
                        else BookStatus.BROKEN)))
  ∧ broken_links (stats st') = S (broken_links (stats st))
  ∧ working_links (stats st') = working_links (stats st).
Proof.
  intros Hurl Ht Hu.
  apply compute_updates_Ok in Hu as (du & Hv & -> & ->).
  destruct (classify_head_unreachable _ Ht) as (d & Hd).
  rewrite !final_updates_lookup by done.
  rewrite (validate_book_other _ _ _ "error_message" Hv)
    by (done || left; by compute_done).
  rewrite (validate_book_status _ _ _ Hv).
  unfold link_edits, link_state, broken_updates. rewrite Hurl, Hd.
  cbn [fst snd from_option].
  split; [|split; [|done]].
  - exists d. split; [done|]. by rewrite lookup_insert_eq.
  - rewrite lookup_insert_ne, lookup_insert_eq by done. by case_bool_decide.
Qed.

Lemma broken_link_edits_witness :
  let env := sample_env sample_config 404 in
  let updates := match (compute_updates env (mkDoc "book1" good_record)
                          (new_bot (one_book good_record))).2 with
                 | Ok updates => updates
                 | Raise _ => ∅
                 end in
  (∃ detail,
     (classify_head (transport env (dict_get good_record "download_url"))).2 = Some detail
     ∧ updates !! "error_message"%string = Some (USet (VStr detail)))
  ∧ updates !! "status"%string =
      Some (USet (VStr (if bool_decide ("status"%string ∈ required_fields (config env)
                                        ∧ is_missing good_record "status" = true)
                        then default_status (config env)
                        else BookStatus.BROKEN)))
  ∧ broken_links (stats (compute_updates env (mkDoc "book1" good_record)
                           (new_bot (one_book good_record))).1) = 1%nat
  ∧ working_links (stats (compute_updates env (mkDoc "book1" good_record)
                            (new_bot (one_book good_record))).1) = 0%nat.
Proof.
  apply (broken_link_edits (sample_env sample_config 404) (mkDoc "book1" good_record)
           (new_bot (one_book good_record))); vm_compute; (reflexivity || congruence).
Defined.

(** X7. For a record that was [broken] and whose probe now ends with a
    response 200, the edit set sets [status] to [published], and the record
    it leaves has status [published] and no [error_message]. *)
Theorem repaired_link_edits env doc st st' updates now :
  truthy (dict_get (doc_data doc) "download_url") = true →
  transport env (dict_get (doc_data doc) "download_url") = Response 200 →
  doc_data doc !! "status"%string = Some (VStr BookStatus.BROKEN) →
  compute_updates env doc st = (st', Ok updates) →
  updates !! "status"%string = Some (USet (VStr BookStatus.PUBLISHED))
  ∧ apply_updates now updates (doc_data doc) !! "status"%string
      = Some (VStr BookStatus.PUBLISHED)
  ∧ apply_updates now updates (doc_data doc) !! "error_message"%string = None.
Proof.
  intros Hurl Ht Hs Hu.
  apply compute_updates_Ok in Hu as (du & Hv & -> & _).
  rewrite !apply_updates_lookup, !final_updates_lookup by done.
  rewrite (validate_book_other _ _ _ "error_message" Hv)
    by (done || left; by compute_done).
  rewrite (validate_book_status _ _ _ Hv).
  assert (is_missing (doc_data doc) "status" = false) as Hm
    by (unfold is_missing; by rewrite Hs).
  rewrite Hm, bool_decide_eq_false_2 by (by intros [_ ?]).
  rewrite link_edits_working by done. unfold repair_updates, dict_get.
  rewrite Hs. cbn [default]. unfold eq_str. rewrite bool_decide_eq_true_2 by done.
  destruct (doc_data doc !! "error_message"%string) as [v|] eqn:He.
  - rewrite bool_decide_eq_true_2 by done.
    by rewrite lookup_insert_eq, lookup_insert_ne, lookup_insert_eq.
  - rewrite bool_decide_eq_false_2 by (by intros [? ?]).
    by rewrite lookup_insert_eq, lookup_insert_ne, lookup_empty.
Qed.

Lemma repaired_link_edits_witness :
  sample_updates broken_record !! "status"%string = Some (USet (VStr BookStatus.PUBLISHED))
  ∧ apply_updates 0 (sample_updates broken_record) broken_record !! "status"%string
      = Some (VStr BookStatus.PUBLISHED)
  ∧ apply_updates 0 (sample_updates broken_record) broken_record !! "error_message"%string
      = None.
Proof.
  apply (repaired_link_edits (sample_env sample_config 200) (mkDoc "book1" broken_record)
           (new_bot (one_book broken_record))
           (sample_run broken_record).1 (sample_updates broken_record) 0);
    vm_compute; reflexivity.
Defined.

(** ** What every step of a run preserves in the whole state *)

Section StateInvariant.
Variable env : Env.
Variable P : State → Prop.
Hypothesis P_process_book : ∀ doc st, P st → P (process_book env doc st).
Hypothesis P_tick : ∀ st, P st → P (tick st).
Hypothesis P_start_time : ∀ t st, P st → P (set_start_time t st).
Hypothesis P_timeout_stop : ∀ st, P st → P (map_stats set_timeout_stop st).
Hypothesis P_execution_time : ∀ t st, P st → P (map_stats (set_execution_time t) st).

Lemma should_stop_keeps st : P st → P (_should_stop_execution env st).2.
Proof using P_tick P_timeout_stop.
  intros HP. unfold _should_stop_execution.
  destruct (start_time st); [|done].
  destruct (Qle_bool _ _); cbn [snd]; auto.
Qed.

Lemma process_all_keeps docs st : P st → P (process_all env docs st).
Proof using P_process_book.
  revert st. induction docs as [|doc docs IH]; intros st HP; [done|].
  apply IH. by apply P_process_book.
Qed.

Lemma run_serial_keeps docs st : P st → P (run_serial env docs st).
Proof using P_process_book P_tick P_timeout_stop.
  revert st. induction docs as [|doc docs IH]; intros st HP; [done|].
  cbn [run_serial].
  pose proof (should_stop_keeps st HP) as Hstop.
  destruct (_should_stop_execution env st) as [[] st']; [done|].
  apply IH. by apply P_process_book.
Qed.

Lemma submit_loop_keeps docs st : P st → P (submit_loop env docs st).2.
Proof using P_tick P_timeout_stop.
  revert st. induction docs as [|doc docs IH]; intros st HP; [done|].
  cbn [submit_loop].
  pose proof (should_stop_keeps st HP) as Hstop.
  destruct (_should_stop_execution env st) as [[] st']; [done|].
  specialize (IH st' Hstop). by destruct (submit_loop env docs st').
Qed.

Lemma run_parallel_keeps docs st : P st → P (run_parallel env docs st).
Proof using P_process_book P_tick P_timeout_stop.
  intros HP. unfold run_parallel.
  pose proof (submit_loop_keeps docs st HP) as Hloop.
  destruct (submit_loop env docs st) as [futures st'].
  by apply process_all_keeps.
Qed.

Lemma run_keeps st : P st → P (run env st).
Proof using All.
  intros HP. unfold run. apply P_execution_time, P_tick.
  assert (P (set_start_time (clock env (ticks st)) (tick st))) as HP1 by auto.
  destruct (length _ =? 0)%nat; [done|].
  destruct (_ && _).
  - by apply run_parallel_keeps.
  - by apply run_serial_keeps.
Qed.
End StateInvariant.

(** ** The catalog and the traces of a run *)

Lemma process_book_db env doc st id :
  id ≠ doc_id doc → db (process_book env doc st) !! id = db st !! id.
Proof.
  intros Hid. process_book_cases env doc st;
    cbn [db map_stats committed log_head]; by rewrite ?lookup_insert_ne.
Qed.

Lemma process_book_dom env doc st :
  dom (db (process_book env doc st)) = dom (db st).
Proof.
  rewrite process_book_eq. cbn zeta.
  destruct (validate_book _ _);
    [destruct (db st !! doc_id doc) eqn:Hdb|]; cbn [db map_stats committed];
    rewrite !link_state_db; cbn [db map_stats]; try done.
  by rewrite dom_insert_lookup_L.
Qed.

(** X8. A run never creates or deletes a record: the catalog holds the
    same document ids after it as before it. *)
Theorem run_keeps_documents env st : dom (db (run env st)) = dom (db st).
Proof.
  apply (run_keeps env (λ st', dom (db st') = dom (db st))); try done.
  intros doc st' HP. by rewrite process_book_dom.
Qed.

(** X9. [fixed_records] counts the catalog writes: after a run of a fresh
    bot it is the number of updates the catalog accepted. *)
Theorem run_fixed_counts_writes env catalog :
  length (write_log (run env (new_bot catalog)))
    = fixed_records (stats (run env (new_bot catalog))).
Proof.
  apply (run_keeps env (λ st, length (write_log st) = fixed_records (stats st)));
    try done.
  intros doc st HP. process_book_cases env doc st;
    cbn [write_log stats map_stats committed log_head fixed_records
         bump_fixed_records bump_errors bump_total_scanned bump_working_links
         bump_broken_links];
    rewrite ?length_app; cbn [length]; lia.
Qed.

(** X10. Every request sent to the transport is counted once: after a run
    of a fresh bot, the number of requests is
    [working_links + broken_links]. *)
Theorem run_links_count_requests env catalog :
  length (head_log (run env (new_bot catalog)))
    = (working_links (stats (run env (new_bot catalog)))
       + broken_links (stats (run env (new_bot catalog))))%nat.
Proof.
  apply (run_keeps env (λ st, length (head_log st)
                              = (working_links (stats st) + broken_links (stats st))%nat));
    try done.
  intros doc st HP. process_book_cases env doc st;
    cbn [head_log stats map_stats committed log_head working_links broken_links
         bump_fixed_records bump_errors bump_total_scanned bump_working_links
         bump_broken_links];
    rewrite ?length_app; cbn [length]; lia.
Qed.

(** X11. Every update a run writes is for a document of the catalog and
    carries both bookkeeping stamps: [last_checked] as the server-time
    sentinel and [last_fixer_run]. *)
Theorem run_writes_are_stamped env catalog id updates :
  (id, updates) ∈ write_log (run env (new_bot catalog)) →
  id ∈ dom catalog
  ∧ updates !! "last_checked"%string = Some UServerTimestamp
  ∧ is_Some (updates !! "last_fixer_run"%string).
Proof.
  revert id updates.
  apply (run_keeps env
           (λ st, dom (db st) = dom catalog
                  ∧ ∀ id updates, (id, updates) ∈ write_log st →
                      id ∈ dom catalog
                      ∧ updates !! "last_checked"%string = Some UServerTimestamp
                      ∧ is_Some (updates !! "last_fixer_run"%string))); try done.
  2: { split; [done|]. intros id u Hin. cbn in Hin. by apply elem_of_nil in Hin. }
  intros doc st [Hdom HP]. split; [by rewrite process_book_dom|].
  intros id u. rewrite process_book_eq. cbn zeta.
  destruct (validate_book _ _) as [du|];
    [destruct (db st !! doc_id doc) eqn:Hdb|];
    cbn [write_log map_stats committed]; unfold link_state;
    destruct (truthy _); cbn [write_log map_stats log_head]; try apply HP.
  all: rewrite elem_of_app, list_elem_of_singleton; intros [Hin|[= -> ->]];
    [by apply HP|].
  all: split; [rewrite <- Hdom; apply elem_of_dom; eauto|].
  all: unfold final_updates;
    by rewrite lookup_insert_ne, !lookup_insert_eq by done.
Qed.

Lemma run_writes_are_stamped_witness :
  "book1"%string ∈ dom (one_book full_record)
  ∧ sample_updates full_record !! "last_checked"%string = Some UServerTimestamp
  ∧ is_Some (sample_updates full_record !! "last_fixer_run"%string).
Proof.
  apply (run_writes_are_stamped (sample_env sample_config 200) (one_book full_record)
           "book1" (sample_updates full_record)).
  vm_compute. apply list_elem_of_here.
Defined.

(** ** Staleness Selector *)

Lemma filter_sublist {A} (f : A → bool) (l : list A) : List.filter f l `sublist_of` l.
Proof.
  induction l as [|x l IH]; [constructor|].
  cbn [List.filter]. destruct (f x); by constructor.
Qed.

Lemma stream_sublist q catalog : stream q catalog `sublist_of` all_docs catalog.
Proof.
  unfold stream. fold (all_docs catalog).
  assert (∀ l l' : list Doc, l `sublist_of` l' →
            match limit q with Some n => take n l | None => l end `sublist_of` l') as Hl.
  { intros l l' Hs. destruct (limit q); [|done].
    etrans; [apply sublist_take|done]. }
  apply Hl. destruct (where_last_checked_lt q); [apply filter_sublist|done].
Qed.

Lemma all_docs_lookup catalog doc :
  doc ∈ all_docs catalog ↔ catalog !! doc_id doc = Some (doc_data doc).
Proof.
  unfold all_docs. rewrite list_elem_of_fmap. split.
  - intros ([id r] & -> & Hin). by apply elem_of_map_to_list.
  - intros Hl. exists (doc_id doc, doc_data doc). split; [by destruct doc|].
    by apply elem_of_map_to_list.
Qed.

Lemma stream_lookup q catalog doc :
  doc ∈ stream q catalog → catalog !! doc_id doc = Some (doc_data doc).
Proof.
  intros Hin. apply all_docs_lookup.
  by eapply sublist_subseteq; [apply stream_sublist|].
Qed.

(** X13. A positive [batch_size] caps the working set at that many
    records. *)
Theorem stream_batch_cap env catalog n :
  batch_size (config env) = Some n →
  n ≠ 0%nat →
  (length (stream (_get_query env) catalog) ≤ n)%nat.
Proof.
  intros Hb Hn. unfold stream, _get_query. rewrite Hb.
  destruct (Nat.eqb_spec n 0) as [|_]; [done|]. cbn [limit].
  rewrite length_take. lia.
Qed.

Lemma stream_batch_cap_witness :
  (length (stream (_get_query
                     (mkEnv {| max_workers := 3; enable_parallel := true;
                               check_interval_days := 7; enable_smart_filter := false;
                               batch_size := Some 1%nat; max_execution_time := 300;
                               default_category := lit "novel";
                               default_status := BookStatus.PUBLISHED;
                               required_fields := default_required_fields |}
                            (λ _, Response 200) (λ _, 0%Q) 0%Z (λ _, 0%Z) (λ _, []) id))
                  two_books) ≤ 1)%nat.
Proof.
  apply stream_batch_cap; [reflexivity|lia].
Defined.

(** X14. With smart filtering off and no batch size, or the batch size 0
    (which [if self.config.batch_size:] takes as none), the working set is
    the whole catalog: every record is in it, and it has as many records as
    the catalog. *)
Theorem stream_whole_catalog env catalog :
  enable_smart_filter (config env) = false →
  batch_size (config env) = None ∨ batch_size (config env) = Some 0%nat →
  length (stream (_get_query env) catalog) = size catalog
  ∧ ∀ id record,
      catalog !! id = Some record → mkDoc id record ∈ stream (_get_query env) catalog.
Proof.
  intros Hs Hb.
  assert (stream (_get_query env) catalog = all_docs catalog) as ->.
  { unfold stream, _get_query. rewrite Hs. by destruct Hb as [-> | ->]. }
  split.
  - unfold all_docs. by rewrite length_fmap, length_map_to_list.
  - intros id record Hl. by apply all_docs_lookup.
Qed.

Lemma stream_whole_catalog_witness :
  length (stream (_get_query (sample_env sample_config 200)) two_books) = size two_books
  ∧ ∀ id record,
      two_books !! id = Some record →
      mkDoc id record ∈ stream (_get_query (sample_env sample_config 200)) two_books.
Proof.
  apply stream_whole_catalog; [reflexivity|left; reflexivity].
Defined.

(** X15. A record that was processed without an error carries the server
    time of its update as [last_checked], and a later query with smart
    filtering whose cutoff is not after that time does not select it. *)
Theorem checked_record_is_not_reselected env env' doc st :
  errors (stats (process_book env doc st)) = errors (stats st) →
  enable_smart_filter (config env') = true →
  cutoff_date env' ≤ server_time env (doc_id doc) →
  (∃ record,
     db (process_book env doc st) !! doc_id doc = Some record
     ∧ record !! "last_checked"%string = Some (VTime (server_time env (doc_id doc))))
  ∧ ∀ d, d ∈ stream (_get_query env') (db (process_book env doc st)) →
         doc_id d ≠ doc_id doc.
Proof.
  intros Herr Hsmart Hcut.
  assert (∃ record,
            db (process_book env doc st) !! doc_id doc = Some record
            ∧ record !! "last_checked"%string
                = Some (VTime (server_time env (doc_id doc)))) as Hrec.
  { revert Herr. rewrite process_book_eq. cbn zeta.
    destruct (validate_book _ _) as [du|];
      [destruct (db st !! doc_id doc) as [r|]|];
      unfold link_state; destruct (truthy _);
      cbn [stats db map_stats committed log_head errors bump_errors bump_fixed_records
           bump_total_scanned bump_working_links bump_broken_links];
      try (destruct (classify_head _).1; cbn; lia); try (cbn; lia).
    all: intros _; eexists; rewrite lookup_insert_eq; split; [done|].
    all: rewrite apply_updates_lookup; unfold final_updates;
      by rewrite lookup_insert_ne, lookup_insert_eq. }
  split; [done|].
  intros d Hd Hid. destruct Hrec as (record & Hdb & Hlc).
  destruct (stream_smart_filter _ _ _ Hsmart Hd) as (t & Ht & Hlt).
  apply stream_lookup in Hd. rewrite Hid, Hdb in Hd.
  assert (doc_data d = record) as Hdata by congruence.
  rewrite Hdata, Hlc in Ht. assert (t = server_time env (doc_id doc)) by congruence.
  lia.
Qed.

Lemma checked_record_is_not_reselected_witness :
  let env := sample_env sample_config 200 in
  let env' := sample_env smart_config 200 in
  let st := new_bot (one_book good_record) in
  (∃ record,
     db (process_book env (mkDoc "book1" good_record) st) !! "book1"%string = Some record
     ∧ record !! "last_checked"%string = Some (VTime (server_time env "book1")))
  ∧ ∀ d, d ∈ stream (_get_query env') (db (process_book env (mkDoc "book1" good_record) st)) →
         doc_id d ≠ "book1"%string.
Proof.
  apply (checked_record_is_not_reselected (sample_env sample_config 200)
           (sample_env smart_config 200) (mkDoc "book1" good_record)
           (new_bot (one_book good_record))).
  - vm_compute. reflexivity.
  - reflexivity.
  - vm_compute. congruence.
Defined.

(** ** Verification Scheduler *)

Lemma should_stop_unset env st :
  start_time st = None → _should_stop_execution env st = (false, st).
Proof. intros Hs. unfold _should_stop_execution. by rewrite Hs. Qed.

(** X16. A loop run on a bot whose [start_time] was never set (outside
    [run]) has no deadline: the serial loop processes every record, the
    parallel loop every record in completion order, and neither reads the
    clock. *)
Theorem loops_without_start_time env docs st :
  start_time st = None →
  run_serial env docs st = process_all env docs st
  ∧ run_parallel env docs st = process_all env (completion env docs) st.
Proof.
  intros Hs. split.
  - revert st Hs. induction docs as [|doc docs IH]; intros st Hs; [done|].
    cbn [run_serial]. rewrite should_stop_unset by done.
    apply IH. by rewrite process_book_start_time.
  - unfold run_parallel.
    assert (submit_loop env docs st = (docs, st)) as ->; [|done].
    induction docs as [|doc docs IH]; [done|].
    cbn [submit_loop]. by rewrite should_stop_unset, IH.
Qed.

Lemma loops_without_start_time_witness :
  run_serial (sample_env sample_config 200) (all_docs two_books) (new_bot two_books)
    = process_all (sample_env sample_config 200) (all_docs two_books) (new_bot two_books)
  ∧ run_parallel (sample_env sample_config 200) (all_docs two_books) (new_bot two_books)
    = process_all (sample_env sample_config 200)
        (completion (sample_env sample_config 200) (all_docs two_books))
        (new_bot two_books).
Proof.
  apply (loops_without_start_time (sample_env sample_config 200) (all_docs two_books)
           (new_bot two_books)).
  reflexivity.
Defined.

Lemma run_serial_completes env docs st t0 :
  start_time st = Some t0 →
  (∀ i, (i < length docs)%nat → deadline_reached env st t0 i = false) →
  run_serial env docs st = Nat.iter (length docs) tick (process_all env docs st).
Proof.
  revert st. induction docs as [|doc docs IH]; intros st Hs Hd; [done|].
  cbn [run_serial]. rewrite (should_stop_eq _ _ _ Hs).
  rewrite Hd by (cbn [length]; lia).
  rewrite IH.
  - rewrite process_book_tick, process_all_tick.
    cbn [length]. by rewrite Nat.iter_succ_r.
  - by rewrite process_book_start_time.
  - intros i Hi. rewrite (deadline_reached_shift env st).
    + apply Hd. cbn [length]. lia.
    + by rewrite process_book_ticks.
Qed.

Lemma submit_loop_completes env docs st t0 :
  start_time st = Some t0 →
  (∀ i, (i < length docs)%nat → deadline_reached env st t0 i = false) →
  submit_loop env docs st = (docs, Nat.iter (length docs) tick st).
Proof.
  revert st. induction docs as [|doc docs IH]; intros st Hs Hd; [done|].
  cbn [submit_loop]. rewrite (should_stop_eq _ _ _ Hs).
  rewrite Hd by (cbn [length]; lia).
  rewrite IH.
  - cbn [length]. by rewrite Nat.iter_succ_r.
  - done.
  - intros i Hi. rewrite (deadline_reached_shift env st) by done.
    apply Hd. cbn [length]. lia.
Qed.

Lemma process_all_total_scanned env docs st :
  total_scanned (stats (process_all env docs st))
    = (total_scanned (stats st) + length docs)%nat.
Proof.
  revert st. induction docs as [|doc docs IH]; intros st.
  { cbn. lia. }
  unfold process_all in *. cbn [foldl length]. rewrite IH.
  assert (total_scanned (stats (process_book env doc st)) = S (total_scanned (stats st)))
    as -> by (process_book_cases env doc st; reflexivity).
  lia.
Qed.

Lemma process_all_timeout_flag env docs st :
  timeout_stop (stats (process_all env docs st)) = timeout_stop (stats st).
Proof.
  revert st. induction docs as [|doc docs IH]; intros st; [done|].
  unfold process_all in *. cbn [foldl]. rewrite IH.
  process_book_cases env doc st; reflexivity.
Qed.

(** X17. When no deadline check of a run sees an elapsed time that reached
    [max_execution_time], the run processes the whole working set (in
    parallel mode in completion order), reads the clock once per record
    between its first and its last reading, and leaves the timeout flag as
    it was. *)
Theorem run_without_deadline env st :
  let t0 := clock env (ticks st) in
  let st1 := set_start_time t0 (tick st) in
  let docs := stream (_get_query env) (db st) in
  let order := if enable_parallel (config env) && (5 <? length docs)%nat
               then completion env docs else docs in
  let st2 := Nat.iter (length docs) tick (process_all env order st1) in
  (∀ i, (i < length docs)%nat → deadline_reached env st1 t0 i = false) →
  run env st = map_stats (set_execution_time (clock env (ticks st2) - t0)%Q) (tick st2)
  ∧ timeout_stop (stats (run env st)) = timeout_stop (stats st)
  ∧ total_scanned (stats (run env st))
      = (total_scanned (stats st) + length order)%nat.
Proof.
  intros t0 st1 docs order st2 Hd.
  assert (start_time st1 = Some t0) as Hs by done.
  assert ((if (length docs =? 0)%nat then st1
           else if enable_parallel (config env) && (5 <? length docs)%nat
                then run_parallel env docs st1 else run_serial env docs st1) = st2)
    as Hloop.
  { unfold st2, order. destruct (Nat.eqb_spec (length docs) 0) as [H0|_].
    - rewrite H0. apply length_zero_iff_nil in H0. rewrite H0. cbn [Nat.ltb Nat.leb].
      rewrite andb_false_r. done.
    - destruct (enable_parallel (config env) && (5 <? length docs)%nat).
      + unfold run_parallel. rewrite (submit_loop_completes _ _ _ _ Hs Hd).
        apply process_all_ticks.
      + by apply (run_serial_completes env docs st1 t0). }
  assert (run env st =
            map_stats (set_execution_time (clock env (ticks st2) - t0)%Q) (tick st2))
    as -> by by rewrite <- Hloop.
  split; [done|].
  unfold st2. cbn [stats map_stats tick set_execution_time timeout_stop total_scanned].
  by rewrite stats_ticks, process_all_timeout_flag, process_all_total_scanned.
Qed.

Lemma run_without_deadline_witness :
  let env := mkEnv sample_config (λ _, Response 200) (λ n, inject_Z (Z.of_nat n))
                   0 (λ _, 0) (λ _, []) id in
  let st := new_bot two_books in
  let t0 := clock env (ticks st) in
  let st1 := set_start_time t0 (tick st) in
  let docs := stream (_get_query env) (db st) in
  let order := if enable_parallel (config env) && (5 <? length docs)%nat
               then completion env docs else docs in
  let st2 := Nat.iter (length docs) tick (process_all env order st1) in
  run env st = map_stats (set_execution_time (clock env (ticks st2) - t0)%Q) (tick st2)
  ∧ timeout_stop (stats (run env st)) = timeout_stop (stats st)
  ∧ total_scanned (stats (run env st))
      = (total_scanned (stats st) + length order)%nat.
Proof.
  apply (run_without_deadline
           (mkEnv sample_config (λ _, Response 200) (λ n, inject_Z (Z.of_nat n))
                  0 (λ _, 0) (λ _, []) id) (new_bot two_books)).
  intros i Hi.
  assert (i < 2)%nat as Hi2 by exact Hi.
  destruct i as [|[|i]]; [reflexivity|reflexivity|lia].
Defined.

(** ** The size of a run *)

Lemma should_stop_total_scanned env st :
  total_scanned (stats (_should_stop_execution env st).2) = total_scanned (stats st).
Proof.
  unfold _should_stop_execution. destruct (start_time st); [|done].
  by destruct (Qle_bool _ _).
Qed.

Lemma run_serial_total_scanned env docs st :
  (total_scanned (stats (run_serial env docs st))
   ≤ total_scanned (stats st) + length docs)%nat.
Proof.
  revert st. induction docs as [|doc docs IH]; intros st.
  { cbn. lia. }
  cbn [run_serial length].
  pose proof (should_stop_total_scanned env st) as Hstop.
  destruct (_should_stop_execution env st) as [[] st']; cbn [snd] in Hstop.
  - lia.
  - etrans; [apply IH|].
    assert (total_scanned (stats (process_book env doc st')) = S (total_scanned (stats st')))
      as -> by (process_book_cases env doc st'; reflexivity).
    lia.
Qed.

Lemma submit_loop_total_scanned env docs st :
  (length (submit_loop env docs st).1 ≤ length docs)%nat
  ∧ total_scanned (stats (submit_loop env docs st).2) = total_scanned (stats st).
Proof.
  revert st. induction docs as [|doc docs IH]; intros st.
  { by cbn. }
  cbn [submit_loop length].
  pose proof (should_stop_total_scanned env st) as Hstop.
  destruct (_should_stop_execution env st) as [[] st']; cbn [snd] in Hstop.
  - cbn [fst snd length]. split; [lia|done].
  - destruct (IH st') as [Hlen Hts].
    destruct (submit_loop env docs st') as [futures st'']. cbn [fst snd length] in *.
    split; [lia|congruence].
Qed.

(** X12. When the pool completes every submitted record once, a run of a
    fresh bot scans no more records than the working set of its query
    holds, hence no more than the catalog holds, and no more than a
    positive [batch_size]. *)
Theorem run_scans_within_working_set env catalog :
  (∀ futures, completion env futures ≡ₚ futures) →
  (total_scanned (stats (run env (new_bot catalog)))
   ≤ length (stream (_get_query env) catalog))%nat
  ∧ (total_scanned (stats (run env (new_bot catalog))) ≤ size catalog)%nat
  ∧ ∀ n, batch_size (config env) = Some n → n ≠ 0%nat →
         (total_scanned (stats (run env (new_bot catalog))) ≤ n)%nat.
Proof.
  intros Hperm.
  set (docs := stream (_get_query env) catalog).
  assert (total_scanned (stats (run env (new_bot catalog))) ≤ length docs)%nat as Hscan.
  { unfold run. cbn [stats map_stats tick set_execution_time total_scanned].
    cbn [db new_bot tick set_start_time]. fold docs.
    set (st1 := set_start_time _ _).
    assert (total_scanned (stats st1) = 0%nat) as H0 by done.
    destruct (length docs =? 0)%nat; [lia|].
    destruct (_ && _).
    - unfold run_parallel.
      destruct (submit_loop_total_scanned env docs st1) as [Hlen Hts].
      destruct (submit_loop env docs st1) as [futures st2]. cbn [fst snd] in *.
      fold (process_all env (completion env futures) st2).
      rewrite process_all_total_scanned, (Permutation_length (Hperm futures)). lia.
    - pose proof (run_serial_total_scanned env docs st1). lia. }
  split; [done|]. split.
  - etrans; [done|].
    etrans; [apply sublist_length, stream_sublist|].
    unfold all_docs. by rewrite length_fmap, length_map_to_list.
  - intros n Hb Hn. etrans; [done|]. by apply stream_batch_cap.
Qed.

Lemma run_scans_within_working_set_witness :
  (total_scanned (stats (run (sample_env sample_config 200) (new_bot two_books)))
   ≤ length (stream (_get_query (sample_env sample_config 200)) two_books))%nat
  ∧ (total_scanned (stats (run (sample_env sample_config 200) (new_bot two_books)))
     ≤ size two_books)%nat
  ∧ ∀ n, batch_size (config (sample_env sample_config 200)) = Some n → n ≠ 0%nat →
         (total_scanned (stats (run (sample_env sample_config 200) (new_bot two_books)))
          ≤ n)%nat.
Proof.
  apply (run_scans_within_working_set (sample_env sample_config 200) two_books).
  intros futures. reflexivity.
Defined.

(** ** main *)

(** X18. For a run that completes, [main] exits with 0 exactly when every
    record it scanned was written to the catalog, and with 1 otherwise. *)
Theorem main_exit_status env catalog :
  let s := stats (run (main_env env) (new_bot catalog)) in
  main env catalog = if bool_decide (fixed_records s = total_scanned s) then 0 else 1.
Proof.
  intros s.
  assert (every_record_resolved s) as Hr.
  { apply run_preserves_bookkeeping. split; [reflexivity|].
    unfold links_within_scanned. cbn. lia. }
  assert (skipped_records s = 0%nat) as Hsk by apply run_skipped.
  unfold main. change (stats (run (main_env env) (new_bot catalog))) with s.
  unfold every_record_resolved in Hr. clearbody s.
  destruct (Nat.ltb_spec 0 (errors s)); case_bool_decide; try done; lia.
Qed.

(** ** Completion order in parallel mode *)

Lemma process_book_stats env doc st :
  stats (process_book env doc st)
    = stats_step env doc (bool_decide (doc_id doc ∈ dom (db st))) (stats st).
Proof.
  rewrite process_book_eq. unfold stats_step, link_state. cbn zeta.
  destruct (validate_book _ _) as [du|].
  2: { destruct (truthy _); [destruct (classify_head _).1|]; reflexivity. }
  destruct (db st !! doc_id doc) as [r|] eqn:Hdb.
  - rewrite bool_decide_eq_true_2 by (apply elem_of_dom; eauto).
    destruct (truthy _); [destruct (classify_head _).1|]; reflexivity.
  - rewrite bool_decide_eq_false_2 by (by apply not_elem_of_dom).
    destruct (truthy _); [destruct (classify_head _).1|]; reflexivity.
Qed.

Lemma stats_step_comm env doc1 doc2 b1 b2 s :
  stats_step env doc1 b1 (stats_step env doc2 b2 s)
    = stats_step env doc2 b2 (stats_step env doc1 b1 s).
Proof.
  unfold stats_step.
  destruct (validate_book (config env) (doc_data doc1)),
           (validate_book (config env) (doc_data doc2)),
           (truthy (dict_get (doc_data doc1) "download_url")),
           (truthy (dict_get (doc_data doc2) "download_url")),
           b1, b2;
    try destruct (classify_head (transport env (dict_get (doc_data doc1) _))).1;
    try destruct (classify_head (transport env (dict_get (doc_data doc2) _))).1;
    reflexivity.
Qed.

Lemma process_all_dom env docs st :
  dom (db (process_all env docs st)) = dom (db st).
Proof.
  revert st. induction docs as [|doc docs IH]; intros st; [done|].
  unfold process_all in *. cbn [foldl]. by rewrite IH, process_book_dom.
Qed.

Lemma process_all_stats env docs st :
  stats (process_all env docs st)
    = foldl (λ s doc, stats_step env doc (bool_decide (doc_id doc ∈ dom (db st))) s)
            (stats st) docs.
Proof.
  revert st. induction docs as [|doc docs IH]; intros st; [done|].
  unfold process_all in *. cbn [foldl].
  by rewrite IH, process_book_dom, process_book_stats.
Qed.

Lemma foldl_comm_permutation {A B} (f : B → A → B) (l1 l2 : list A) :
  (∀ b x y, f (f b x) y = f (f b y) x) →
  l1 ≡ₚ l2 → ∀ b, foldl f b l1 = foldl f b l2.
Proof.
  intros Hf. induction 1 as [|x l1 l2 _ IH|x y l|l1 l2 l3 _ IH1 _ IH2]; intros b.
  - done.
  - cbn [foldl]. apply IH.
  - cbn [foldl]. by rewrite Hf.
  - by rewrite IH1.
Qed.

(** X19. In parallel mode the statistics do not depend on the order in
    which the pool completes the submitted records: when the completion
    order is a permutation of the submission order, they are those of
    processing the records as submitted. *)
Theorem run_parallel_stats_order env docs st :
  completion env (submit_loop env docs st).1 ≡ₚ (submit_loop env docs st).1 →
  stats (run_parallel env docs st)
    = stats (process_all env (submit_loop env docs st).1 (submit_loop env docs st).2).
Proof.
  unfold run_parallel. destruct (submit_loop env docs st) as [futures st'].
  cbn [fst snd]. intros Hperm. fold (process_all env (completion env futures) st').
  rewrite !process_all_stats.
  apply foldl_comm_permutation; [|done].
  intros s d1 d2. apply stats_step_comm.
Qed.

Lemma run_parallel_stats_order_witness :
  let env := mkEnv sample_config (λ _, Response 200) (λ n, inject_Z (200 * Z.of_nat n))
                   0 (λ _, 0) (λ _, []) reverse in
  stats (run_parallel env (all_docs two_books) (new_bot two_books))
    = stats (process_all env (submit_loop env (all_docs two_books) (new_bot two_books)).1
               (submit_loop env (all_docs two_books) (new_bot two_books)).2).
Proof.
  apply (run_parallel_stats_order
           (mkEnv sample_config (λ _, Response 200) (λ n, inject_Z (200 * Z.of_nat n))
                  0 (λ _, 0) (λ _, []) reverse)
           (all_docs two_books) (new_bot two_books)).
  cbn [completion]. apply reverse_Permutation.
Defined.

(** ** Isolation of a record's processing *)

(** X20. [process_book] changes no document but its own: every other
    document of the catalog is after the call what it was before. *)
Theorem process_book_other_documents env doc st id :
  id ≠ doc_id doc →
  db (process_book env doc st) !! id = db st !! id.
Proof. apply process_book_db. Qed.

Lemma process_book_other_documents_witness :
  db (process_book (sample_env sample_config 404) (mkDoc "book1" full_record)
        (new_bot two_books)) !! "book2"%string
    = db (new_bot two_books) !! "book2"%string.
Proof.
  apply (process_book_other_documents (sample_env sample_config 404)
           (mkDoc "book1" full_record) (new_bot two_books) "book2").
  vm_compute. congruence.
Defined.

(** X21. A record whose processing is counted as an error leaves the
    catalog as it was: nothing is written, and [fixed_records] does not
    change. The record is still counted as scanned. *)
Theorem failed_record_writes_nothing env doc st :
  errors (stats (process_book env doc st)) = S (errors (stats st)) →
  db (process_book env doc st) = db st
  ∧ write_log (process_book env doc st) = write_log st
  ∧ fixed_records (stats (process_book env doc st)) = fixed_records (stats st)
  ∧ total_scanned (stats (process_book env doc st)) = S (total_scanned (stats st)).
Proof.
  process_book_cases env doc st;
    cbn [stats db write_log map_stats committed log_head errors fixed_records
         total_scanned bump_errors bump_fixed_records bump_total_scanned
         bump_working_links bump_broken_links];
    (lia || done).
Qed.

Lemma failed_record_writes_nothing_witness :
  let env := sample_env sample_config 200 in
  let doc := mkDoc "book1" numeric_title_record in
  let st := new_bot (one_book numeric_title_record) in
  db (process_book env doc st) = db st
  ∧ write_log (process_book env doc st) = write_log st
  ∧ fixed_records (stats (process_book env doc st)) = fixed_records (stats st)
  ∧ total_scanned (stats (process_book env doc st)) = S (total_scanned (stats st)).
Proof.
  apply (failed_record_writes_nothing (sample_env sample_config 200)
           (mkDoc "book1" numeric_title_record)
           (new_bot (one_book numeric_title_record))).
  vm_compute. reflexivity.
Defined.
